(** * Wormhole data-provider plugin: a shallow embedding of the snapshot engine

    The development follows [packages/wormhole-plugin/src/service.ts]: the
    [RateLimiter], the retrying [executeRequest], the decimal normalisation
    of rate quotes, the binary-search liquidity probe, the snapshot
    coordinator and the health probe.  The operations-based variant of the
    service (the one that reads the Wormholescan [operations] endpoint) is
    embedded where its health probe is compared with the first one.

    Conventions of the embedding.
    - A JavaScript [number] is an IEEE-754 binary64 value, given by the
      executable specification [SpecFloat] of the Standard Library
      (precision 53, [emax] 1024).  Rates, fees and slippages are computed
      with it, rounding included.
    - A [bigint] is a [Z].
    - Counters, back-off delays and the bounds of the liquidity search are
      integers far below 2^53, on which binary64 arithmetic is exact; they
      are carried as [nat] or [Z].
    - A string is carried as its UTF-8 bytes.
    - The rate limiter is embedded twice: over an ideal clock of rational
      milliseconds ([RateLimiter]), to study the delay it computes, and as
      the runtime executes it ([RateLimiterMs]), where [Date.now()] reads
      whole milliseconds, the interval is a number and a timer is armed
      for whole milliseconds.
    - An [async] function is a function to a [Completion]: it either
      returns a value or throws (rejects).  The upstream is a [World]: the
      answer given to the k-th [fetch] of an operation. *)

From Stdlib Require Import ZArith NArith QArith Qabs Qpower Qminmax List String Ascii Bool.
From Stdlib Require Import Lia Lqa.
From Stdlib Require Import Floats.SpecFloat.
Import ListNotations.
Set Warnings "-register-all".
Local Open Scope string_scope.
Local Open Scope Z_scope.

(* ------------------------------------------------------------------ *)
(** ** JavaScript values, errors and conversions *)

Module Js.

(** The error classes the service throws, catches or tests with [instanceof]. *)
Inductive ErrorClass : Type :=
| Error_
| TypeError_
| RangeError_
| SyntaxError_
| TimeoutError_
| PluginConfigurationError_.

Record JsError : Type := mkError { errorClass : ErrorClass; message : string }.

(** What a [throw] or a rejected promise carries: an [Error] object, or any
    other value, of which only [String(value)] is ever used. *)
Inductive Thrown : Type :=
| ThrownError (e : JsError)
| ThrownValue (text : string).

Inductive Completion (T : Type) : Type :=
| Returned (v : T)
| Threw (t : Thrown).
Arguments Returned {T} v.
Arguments Threw {T} t.

Definition bind {A B : Type} (c : Completion A) (k : A -> Completion B) : Completion B :=
match c with
| Returned v => k v
| Threw t => Threw t
end.

Definition throwError {T : Type} (c : ErrorClass) (msg : string) : Completion T :=
Threw (ThrownError (mkError c msg)).

(** [error instanceof Error ? error : new Error(String(error))] *)
Definition toError (t : Thrown) : JsError :=
match t with
| ThrownError e => e
| ThrownValue text => mkError Error_ text
end.

(** [error instanceof Error ? error.message : String(error)] *)
Definition messageOf (t : Thrown) : string :=
match t with
| ThrownError e => message e
| ThrownValue text => text
end.

Definition instanceofPluginConfigurationError (t : Thrown) : bool :=
match t with
| ThrownError (mkError PluginConfigurationError_ _) => true
| _ => false
end.

Definition instanceofTypeError (e : JsError) : bool :=
match errorClass e with
| TypeError_ => true
| _ => false
end.

(** [haystack.includes(needle)] *)
Fixpoint includes (needle haystack : string) : bool :=
String.prefix needle haystack ||
match haystack with
| EmptyString => false
| String _ rest => includes needle rest
end.

(** *** Numbers *)

Definition prec : Z := 53.
Definition emax : Z := 1024.

Definition number : Type := spec_float.

(** [Number(bigint)]: the nearest binary64 value, ties to even. *)
Definition Number_of_bigint (z : Z) : number := binary_normalize prec emax z 0 false.

Definition fdiv : number -> number -> number := SFdiv prec emax.
Definition fmul : number -> number -> number := SFmul prec emax.
Definition fsub : number -> number -> number := SFsub prec emax.
Definition fabs : number -> number := SFabs.

(** [x <= y] and [x === y] on numbers: false as soon as one side is NaN,
    and the two zeros are equal. *)
Definition fleb : number -> number -> bool := SFleb.
Definition feqb : number -> number -> bool := SFeqb.

(** [Math.max(x, y)]: NaN as soon as one side is; of the two zeros +0 is
    the larger. *)
Definition fmax (x y : number) : number :=
match SFcompare x y with
| None => S754_nan
| Some Lt => y
| Some Gt => x
| Some Eq => match x with S754_zero true => y | _ => x end
end.

Definition isNaN (x : number) : bool :=
match x with
| S754_nan => true
| _ => false
end.

Definition isFiniteNumber (x : number) : bool :=
match x with
| S754_zero _ | S754_finite _ _ _ => true
| _ => false
end.

Definition isNegative (x : number) : bool :=
match x with
| S754_zero s | S754_infinity s | S754_finite s _ _ => s
| S754_nan => false
end.

(** The integer a number denotes, when it denotes one ([NumberToBigInt]). *)
Definition integerOfNumber (x : number) : option Z :=
match x with
| S754_zero _ => Some 0
| S754_finite s m e =>
    let v :=
      match e with
      | Z0 => Some (Zpos m)
      | Zpos p => Some (Zpos m * 2 ^ Zpos p)
      | Zneg p => if Zpos m mod 2 ^ Zpos p =? 0 then Some (Zpos m / 2 ^ Zpos p) else None
      end in
    option_map (fun a => if s then - a else a) v
| _ => None
end.

(** [Math.floor(x)] read as an integer; [None] for NaN and the infinities. *)
Definition floorOfNumber (x : number) : option Z :=
match x with
| S754_zero _ => Some 0
| S754_finite s m e =>
    let a := if s then Zneg m else Zpos m in
    Some (match e with
          | Z0 => a
          | Zpos p => a * 2 ^ Zpos p
          | Zneg p => a / 2 ^ Zpos p
          end)
| _ => None
end.

(** *** BigInt and strings *)

Definition digitChar (d : Z) : ascii := ascii_of_nat (48 + Z.to_nat d).

Fixpoint digitsOf (fuel : nat) (n : Z) (acc : string) : string :=
match fuel with
| O => acc
| S fuel' =>
    let acc' := String (digitChar (n mod 10)) acc in
    if n <? 10 then acc' else digitsOf fuel' (n / 10) acc'
end.

(** [bigint.toString()] *)
Definition BigInt_toString (z : Z) : string :=
if z <? 0
then String "-" (digitsOf (S (Z.to_nat (Z.log2 (- z)))) (- z) "")
else digitsOf (S (Z.to_nat (Z.log2 z))) z "".

(** Strings are carried as their UTF-8 bytes.  The characters that
    [StringToBigInt] and [parseInt] trim are the white space and the line
    terminators of the language: TAB, LF, VT, FF, CR and SP in one byte, *)
Definition isWhiteSpace (c : ascii) : bool :=
let n := nat_of_ascii c in
((9 <=? n) && (n <=? 13))%nat || (n =? 32)%nat.

(** U+00A0 in two bytes (C2 A0), *)
Definition isWhiteSpace2 (c1 c2 : ascii) : bool :=
((nat_of_ascii c1 =? 194) && (nat_of_ascii c2 =? 160))%nat.

(** and in three bytes U+1680 (E1 9A 80), U+2000 to U+200A, U+2028, U+2029
    and U+202F (E2 80 80..8A, A8, A9, AF), U+205F (E2 81 9F), U+3000
    (E3 80 80) and U+FEFF (EF BB BF). *)
Definition isWhiteSpace3 (c1 c2 c3 : ascii) : bool :=
let n1 := nat_of_ascii c1 in
let n2 := nat_of_ascii c2 in
let n3 := nat_of_ascii c3 in
(((n1 =? 225) && (n2 =? 154) && (n3 =? 128))
 || ((n1 =? 226) && (n2 =? 128)
     && (((128 <=? n3) && (n3 <=? 138)) || (n3 =? 168) || (n3 =? 169) || (n3 =? 175)))
 || ((n1 =? 226) && (n2 =? 129) && (n3 =? 159))
 || ((n1 =? 227) && (n2 =? 128) && (n3 =? 128))
 || ((n1 =? 239) && (n2 =? 187) && (n3 =? 191)))%nat.

(** Dropping the white space a string starts with, the two- and three-byte
    characters being recognised by [w2] and [w3]. *)
Fixpoint trimLeft (w2 : ascii -> ascii -> bool) (w3 : ascii -> ascii -> ascii -> bool)
  (s : string) : string :=
match s with
| EmptyString => EmptyString
| String c1 rest1 =>
    if isWhiteSpace c1 then trimLeft w2 w3 rest1
    else
      match rest1 with
      | EmptyString => s
      | String c2 rest2 =>
          if w2 c1 c2 then trimLeft w2 w3 rest2
          else
            match rest2 with
            | EmptyString => s
            | String c3 rest3 => if w3 c1 c2 c3 then trimLeft w2 w3 rest3 else s
            end
      end
end.

Definition trimStart (s : string) : string := trimLeft isWhiteSpace2 isWhiteSpace3 s.

Definition reverse (s : string) : string :=
string_of_list_ascii (List.rev (list_ascii_of_string s)).

(** At the end of the string the bytes of a character come in reverse. *)
Definition trimEnd (s : string) : string :=
reverse (trimLeft (fun c1 c2 => isWhiteSpace2 c2 c1)
                  (fun c1 c2 c3 => isWhiteSpace3 c3 c2 c1)
                  (reverse s)).

Definition trim (s : string) : string := trimEnd (trimStart s).

Definition digitValue (c : ascii) : option Z :=
let n := Z.of_nat (nat_of_ascii c) in
if (48 <=? n) && (n <=? 57) then Some (n - 48)
else if (97 <=? n) && (n <=? 122) then Some (n - 87)
else if (65 <=? n) && (n <=? 90) then Some (n - 55)
else None.

Fixpoint parseDigits (radix : Z) (s : string) (acc : Z) : option Z :=
match s with
| EmptyString => Some acc
| String c rest =>
    match digitValue c with
    | Some d => if d <? radix then parseDigits radix rest (acc * radix + d) else None
    | None => None
    end
end.

Definition parseNonEmptyDigits (radix : Z) (s : string) : option Z :=
match s with
| EmptyString => None
| _ => parseDigits radix s 0
end.

Definition radixOfPrefix (c : ascii) : option Z :=
if (Ascii.eqb c "x" || Ascii.eqb c "X")%char then Some 16
else if (Ascii.eqb c "o" || Ascii.eqb c "O")%char then Some 8
else if (Ascii.eqb c "b" || Ascii.eqb c "B")%char then Some 2
else None.

(** [StringToBigInt]: white space is trimmed, the empty string is 0n, a
    decimal literal may carry a sign, a literal with a radix prefix may not. *)
Definition StringToBigInt (s : string) : option Z :=
let t := trim s in
match t with
| EmptyString => Some 0
| String "+" rest => parseNonEmptyDigits 10 rest
| String "-" rest => option_map Z.opp (parseNonEmptyDigits 10 rest)
| String "0" (String c rest) =>
    match radixOfPrefix c with
    | Some radix => parseNonEmptyDigits radix rest
    | None => parseNonEmptyDigits 10 t
    end
| _ => parseNonEmptyDigits 10 t
end.

(** Predicates on the characters of a string, used to state what the
    conversions above accept. *)
Fixpoint stringForall (P : ascii -> bool) (s : string) : bool :=
match s with
| EmptyString => true
| String c rest => P c && stringForall P rest
end.

Definition isDigit (c : ascii) : bool :=
let n := Z.of_nat (nat_of_ascii c) in (48 <=? n) && (n <=? 57).

(** A one-byte character that is no white space. *)
Definition plainChar (c : ascii) : bool :=
negb (isWhiteSpace c) && (nat_of_ascii c <? 128)%nat.

(** [BigInt(string)] *)
Definition BigInt_of_string (s : string) : Completion Z :=
match StringToBigInt s with
| Some z => Returned z
| None => throwError SyntaxError_ ("Cannot convert " ++ s ++ " to a BigInt")
end.

(** *** JSON payloads *)

(** The values a parsed payload holds.  Arrays are left out: no operation
    embedded here reads one. *)
Inductive JsVal : Type :=
| JUndefined
| JNull
| JBool (b : bool)
| JNum (x : number)
| JStr (s : string)
| JObj (fields : list (string * JsVal)).

Definition truthy (v : JsVal) : bool :=
match v with
| JUndefined | JNull => false
| JBool b => b
| JNum (S754_zero _) | JNum S754_nan => false
| JNum _ => true
| JStr s => negb (String.eqb s "")
| JObj _ => true
end.

(** [a || b] *)
Definition or_else (a b : JsVal) : JsVal := if truthy a then a else b.

Fixpoint lookup (fields : list (string * JsVal)) (name : string) : JsVal :=
match fields with
| [] => JUndefined
| (k, v) :: rest => if String.eqb k name then v else lookup rest name
end.

(** [value.name]: reading a property of [null] or [undefined] throws. *)
Definition prop (v : JsVal) (name : string) : Completion JsVal :=
match v with
| JUndefined | JNull =>
    throwError TypeError_ ("Cannot read properties of null or undefined (reading '" ++ name ++ "')")
| JObj fields => Returned (lookup fields name)
| _ => Returned JUndefined
end.

(** [typeof v === "number" && !isNaN(v)] *)
Definition isUsableNumber (v : JsVal) : option number :=
match v with
| JNum x => if isNaN x then None else Some x
| _ => None
end.

(** [BigInt(value)] *)
Definition BigInt_of_value (v : JsVal) : Completion Z :=
match v with
| JStr s => BigInt_of_string s
| JNum x =>
    match integerOfNumber x with
    | Some z => Returned z
    | None => throwError RangeError_ "The number cannot be converted to a BigInt because it is not an integer"
    end
| JBool b => Returned (if b then 1 else 0)
| JUndefined | JNull => throwError TypeError_ "Cannot convert undefined or null to a BigInt"
| JObj _ => throwError SyntaxError_ "Cannot convert [object Object] to a BigInt"
end.

(** *** Printing a number that denotes an integer

    [Number::toString] prints the shortest decimal that reads back as the
    same number: the least count [k] of significant digits for which a
    multiple of [10^(n-k)] rounds to [x], [n] being the count of digits of
    the integer part; of two such multiples the closer is taken, of two
    equally close the even one, as the engines do. *)

Definition decimalDigits (v : Z) : nat := String.length (BigInt_toString v).

(** [v > 0] is the integer [x] denotes; [scale] is [10^(n-k)]. *)
Fixpoint shortestFrom (x : number) (v scale : Z) (fuel : nat) : Z :=
match fuel with
| O => v
| S fuel' =>
    let lo := v / scale * scale in
    let hi := lo + scale in
    let okLo := feqb (Number_of_bigint lo) x in
    let okHi := feqb (Number_of_bigint hi) x in
    if okLo && okHi then
      if v - lo <? hi - v then lo
      else if hi - v <? v - lo then hi
      else if Z.even (lo / scale) then lo else hi
    else if okLo then lo
    else if okHi then hi
    else shortestFrom x v (scale / 10) fuel'
end.

Definition shortestDecimal (x : number) (v : Z) : Z :=
shortestFrom x v (10 ^ (Z.of_nat (decimalDigits v) - 1)) (decimalDigits v).

Fixpoint dropZeros (s : string) : string :=
match s with
| String "0" rest => dropZeros rest
| _ => s
end.

(** The rendering from 10^21 on: [d.ddde+n]. *)
Definition exponentForm (w : Z) : string :=
let digits := BigInt_toString w in
let exponent := BigInt_toString (Z.of_nat (String.length digits) - 1) in
match reverse (dropZeros (reverse digits)) with
| EmptyString => digits
| String d EmptyString => String d ("e+" ++ exponent)
| String d more => String d ("." ++ more ++ "e+" ++ exponent)
end.

(** [String(Number(z))] for an integer [z]. *)
Definition String_of_Number_of_bigint (z : Z) : string :=
match Number_of_bigint z with
| S754_zero _ => "0"
| S754_nan => "NaN"
| S754_infinity s => if s then "-Infinity" else "Infinity"
| S754_finite s m e =>
    match integerOfNumber (S754_finite false m e) with
    | Some v =>
        let w := shortestDecimal (S754_finite false m e) v in
        (if s then "-" else "") ++ (if w <? 10 ^ 21 then BigInt_toString w else exponentForm w)
    | None => "NaN"   (* not reached: [Number(z)] denotes an integer *)
    end
end.

(** [BigInt(String(value))].  A number that denotes an integer prints as
    above, which reads back as an integer below 10^21 and not from there
    on; every other rendering (fraction, [NaN], [Infinity], [true],
    [null], ...) is not an integer literal. *)
Definition BigInt_of_String_of_value (v : JsVal) : Completion Z :=
match v with
| JStr s => BigInt_of_string s
| JNum x =>
    match integerOfNumber x with
    | Some z => BigInt_of_string (String_of_Number_of_bigint z)
    | None => throwError SyntaxError_ "Cannot convert a non-integer literal to a BigInt"
    end
| _ => throwError SyntaxError_ "Cannot convert a non-numeric literal to a BigInt"
end.

End Js.

Notation "x <- c ;; k" := (Js.bind c (fun x => k))
  (at level 61, c at next level, right associativity).

(* ------------------------------------------------------------------ *)
(** ** The upstream as the service sees it *)

Module Upstream.
Import Js.

Inductive Window : Type := W24h | W7d | W30d.

Record Asset : Type := mkAsset
  { chainId : string; assetId : string; symbol : string; decimals : nat }.

Record Route : Type := mkRoute { source : Asset; destination : Asset }.

(** An instant, as [new Date()] reads it; [toISOString] renders it. *)
Record Timestamp : Type := mkTimestamp { epochMs : Z }.

(** The requests the service issues through [fetch]. *)
Inductive Request : Type :=
| GetVolume
| PostQuote (route : Route) (amount : string)
| GetAssets
| GetHealth
| GetOperations (pageSize : Z).

Record Response : Type := mkResponse
  { status : N;
    statusText : string;
    retryAfter : option string;   (* [headers.get("Retry-After")] *)
    json : option JsVal;          (* [None]: the body is not JSON *)
    arrival : Timestamp           (* [new Date()] as the parse callback reads it *) }.

(** [response.ok] *)
Definition ok (r : Response) : bool := ((200 <=? status r) && (status r <=? 299))%N.

Inductive FetchResult : Type :=
| Rejected (t : Thrown)
| Responded (r : Response).

(** What one operation observes: the result of its k-th [fetch], and the
    clock it reads once k fetches are behind it.  Operations that run
    concurrently under [Promise.all] each have a view of their own; how the
    event loop interleaves them is not the service's doing. *)
Record World : Type := mkWorld
  { fetch : nat -> Request -> FetchResult;
    clock : nat -> Timestamp }.

(** [await response.json()] *)
Definition readJson (r : Response) : Completion JsVal :=
match json r with
| Some v => Returned v
| None => throwError SyntaxError_ "Unexpected token in JSON"
end.

(** *** The shapes of the data contract *)

Module VolumeWindow.
Record t : Type := mk { window : Window; volumeUsd : JsVal; measuredAt : Timestamp }.
End VolumeWindow.

Module Rate.
Record t : Type := mk
  { source : Asset;
    destination : Asset;
    amountIn : string;
    amountOut : string;
    effectiveRate : number;
    totalFeesUsd : number;
    quotedAt : Timestamp }.
End Rate.

Module LiquidityThreshold.
Record t : Type := mk { maxAmountIn : string; slippageBps : number }.
End LiquidityThreshold.

Module LiquidityDepth.
Record t : Type := mk
  { route : Route; thresholds : list LiquidityThreshold.t; measuredAt : Timestamp }.
End LiquidityDepth.

Module ListedAssets.
Record t : Type := mk { assets : list Asset; measuredAt : Timestamp }.
End ListedAssets.

Module ProviderSnapshot.
Record t : Type := mk
  { volumes : list VolumeWindow.t;
    rates : list Rate.t;
    liquidity : list LiquidityDepth.t;
    listedAssets : ListedAssets.t }.
End ProviderSnapshot.

Module PingResult.
Record t : Type := mk { status : string; timestamp : Timestamp }.
End PingResult.

End Upstream.

(* ------------------------------------------------------------------ *)
(** ** Effect, as far as the service uses it *)

Module Effect.
Import Js.

(** An effect is given by what running it yields: a value on the success
    channel or an error on the failure channel.  [Effect.runPromise]
    resolves with the first and rejects with the second. *)
Inductive Exit (E A : Type) : Type :=
| Success (a : A)
| Failure (e : E).
Arguments Success {E A} a.
Arguments Failure {E A} e.

(** [Effect.tryPromise({ try, catch })]: a rejection of [try] is mapped by
    [catch] to the error the effect fails with. *)
Definition tryPromise {E A : Type} (try_ : Completion A) (catch_ : Thrown -> E) : Exit E A :=
match try_ with
| Returned a => Success a
| Threw t => Failure (catch_ t)
end.

Definition succeed {E A : Type} (a : A) : Exit E A := Success a.

(** [self.pipe(Effect.catchAll(f))] *)
Definition catchAll {E E' A : Type} (self : Exit E A) (f : E -> Exit E' A) : Exit E' A :=
match self with
| Success a => Success a
| Failure e => f e
end.

Definition map {E A B : Type} (self : Exit E A) (f : A -> B) : Exit E B :=
match self with
| Success a => Success (f a)
| Failure e => Failure e
end.

End Effect.

(* ------------------------------------------------------------------ *)
(** ** RateLimiter *)

Module RateLimiter.
Local Open Scope Q_scope.

(** The [queue] and [processing] fields of the class are never read. *)
Record t : Type := mk
  { minIntervalMs : Q;
    maxRequestsPerSecond : Q;
    lastCallTime : Q }.

Definition create (minIntervalMs maxRequestsPerSecond : Q) : t :=
mk minIntervalMs maxRequestsPerSecond 0.

(** [Math.max(0, this.minIntervalMs - (now - this.lastCallTime))] *)
Definition timeToWait (l : t) (now : Q) : Q :=
Qmax 0 (minIntervalMs l - (now - lastCallTime l)).

(** [waitForSlot], called at [now].  A timer armed for [timeToWait]
    milliseconds fires no earlier than that; [lateness >= 0] is how much
    later it fires.  The callback stores the clock it then reads and
    resolves the promise. *)
Definition waitForSlot (l : t) (now lateness : Q) : Q * t :=
let fired := now + timeToWait l now + lateness in
(fired, mk (minIntervalMs l) (maxRequestsPerSecond l) fired).

End RateLimiter.

(** The limiter as the runtime executes it.  [Date.now()] reads a whole
    number of milliseconds, far below 2^53, so the difference of two
    readings is exact; the interval is the number the constructor of the
    service computes; [setTimeout] takes the delay as a whole number of
    milliseconds. *)
Module RateLimiterMs.
Import Js.

Record t : Type := mk
  { minIntervalMs : number;
    maxRequestsPerSecond : number;
    lastCallTime : Z }.

(** [new RateLimiter(minIntervalMs, maxRequestsPerSecond)] *)
Definition create (minIntervalMs maxRequestsPerSecond : number) : t :=
mk minIntervalMs maxRequestsPerSecond 0.


(** [Math.max(0, this.minIntervalMs - (now - this.lastCallTime))] *)
Definition timeToWait (l : t) (now : Z) : number :=
fmax (S754_zero false) (fsub (minIntervalMs l) (Number_of_bigint (now - lastCallTime l))).

(** The whole milliseconds [setTimeout(callback, delay)] waits at least:
    the delay without its fraction.  A delay below 1, above 2^31 - 1 or
    that is no number is replaced by the least delay of the runtime, 0
    here. *)
Definition timerDelay (delay : number) : Z :=
match floorOfNumber delay with
| Some d => if (1 <=? d) && (d <=? 2147483647) then d else 0
| None => 0
end.

(** [waitForSlot], called when the clock reads [now].  The timer fires
    [lateness] milliseconds after the delay it was armed for; the callback
    stores the clock it then reads and resolves the promise. *)
Definition waitForSlot (l : t) (now lateness : Z) : Z * t :=
let fired := now + timerDelay (timeToWait l now) + lateness in
(fired, mk (minIntervalMs l) (maxRequestsPerSecond l) fired).






End RateLimiterMs.

(* ------------------------------------------------------------------ *)
(** ** WormholeService *)

Module WormholeService.
Import Js Upstream.

Record RetryConfig : Type := mkRetryConfig
  { maxRetries : nat;
    initialDelayMs : Z;
    maxDelayMs : Z;
    backoffMultiplier : Z }.

Record t : Type := mk
  { baseUrl : string;
    apiKey : string;
    timeout : Z;
    requestsPerSecond : Q;
    rateLimiter : RateLimiter.t;
    retryConfig : RetryConfig }.

(** [constructor(baseUrl, apiKey, timeout, requestsPerSecond, maxRetries)] *)
Definition new (baseUrl apiKey : string) (timeout : Z) (requestsPerSecond : Q)
  (maxRetries : nat) : t :=
let minIntervalMs := Qmax 100 (1000 / requestsPerSecond) in
mk baseUrl apiKey timeout requestsPerSecond
   (RateLimiter.create minIntervalMs requestsPerSecond)
   (mkRetryConfig maxRetries 1000 10000 2).

(** The defaults of the constructor: [requestsPerSecond = 10], [maxRetries = 3]. *)
Definition newDefault (baseUrl apiKey : string) (timeout : Z) : t :=
new baseUrl apiKey timeout 10 3.

(** *** executeRequest *)

Inductive Event : Type :=
| SlotAcquired               (* [await this.rateLimiter.waitForSlot()] *)
| Fetched (req : Request)    (* [await requestFn()] *)
| BackedOff (delayMs : Z).   (* [await new Promise(r => setTimeout(r, delay))] *)

Record Run (T : Type) : Type := mkRun
  { outcome : Completion T;
    attempts : nat;
    trace : list Event }.
Arguments mkRun {T}.
Arguments outcome {T}.
Arguments attempts {T}.
Arguments trace {T}.

Fixpoint digitPrefix (s : string) (acc : option Z) : option Z :=
match s with
| EmptyString => acc
| String c rest =>
    match digitValue c with
    | Some d =>
        if d <? 10
        then digitPrefix rest (Some (match acc with Some a => a * 10 + d | None => d end))
        else acc
    | None => acc
    end
end.

(** [parseInt(s, 10)]; [None] is NaN. *)
Definition parseInt10 (s : string) : option Z :=
match trimStart s with
| String "-" rest => option_map Z.opp (digitPrefix rest None)
| String "+" rest => digitPrefix rest None
| t => digitPrefix t None
end.

(** The text of [parseInt(response.headers.get("Retry-After") || "60", 10)]
    in a template: the integer read is rounded to a number, and the
    number is printed. *)
Definition retryAfterText (r : Response) : string :=
let header :=
  match retryAfter r with
  | Some h => if String.eqb h "" then "60" else h
  | None => "60"
  end in
match parseInt10 header with
| None => "NaN"
| Some z => String_of_Number_of_bigint z
end.

Definition statusString (r : Response) : string := BigInt_toString (Z.of_N (status r)).

(** The inner [try] of one attempt, from the result of [requestFn()] on. *)
Definition attemptBody {T : Type} (cfg : RetryConfig) (attempt : nat)
  (fetched : FetchResult) (parseFn : Response -> Completion T) : Completion T :=
match fetched with
| Rejected t => Threw t
| Responded r =>
    if negb (ok r) then
      if (status r =? 429)%N then
        throwError Error_ ("Rate limited. Retry after " ++ retryAfterText r ++ " seconds")
      else if ((status r =? 401) || (status r =? 403))%N then
        throwError PluginConfigurationError_
          "Invalid API credentials or insufficient permissions"
      else if (500 <=? status r)%N && (attempt <? maxRetries cfg)%nat then
        throwError Error_ ("Server error: " ++ statusString r ++ " " ++ statusText r)
      else
        throwError Error_ ("HTTP " ++ statusString r ++ ": " ++ statusText r)
    else parseFn r
end.

(** [Math.min(initialDelayMs * Math.pow(backoffMultiplier, attempt), maxDelayMs)] *)
Definition backoffDelay (cfg : RetryConfig) (attempt : nat) : Z :=
Z.min (initialDelayMs cfg * backoffMultiplier cfg ^ Z.of_nat attempt) (maxDelayMs cfg).

(** The errors the outer [catch] rethrows at once. *)
Definition terminal (lastError : JsError) : bool :=
(instanceofTypeError lastError && includes "fetch" (message lastError))
|| includes "Authentication failed" (message lastError).

(** The [for] loop, [remaining] iterations before [attempt] exceeds
    [maxRetries].  The k-th fetch of the world is the one of attempt 0. *)
Fixpoint attemptLoop {T : Type} (cfg : RetryConfig) (w : World) (k : nat)
  (req : Request) (parseFn : Response -> Completion T)
  (remaining attempt : nat) (lastError : option JsError) : Run T :=
match remaining with
| O =>
    let e := match lastError with
             | Some e => e
             | None => mkError Error_ "Request failed after all retries"
             end in
    mkRun (Threw (ThrownError e)) 0 []
| S remaining' =>
    let fetched := fetch w (k + attempt)%nat req in
    let here := [SlotAcquired; Fetched req] in
    match attemptBody cfg attempt fetched parseFn with
    | Returned v => mkRun (Returned v) 1 here
    | Threw error =>
        let lastError := toError error in
        if instanceofPluginConfigurationError error then mkRun (Threw error) 1 here
        else if terminal lastError then mkRun (Threw (ThrownError lastError)) 1 here
        else
          let pause :=
            if (attempt <? maxRetries cfg)%nat
            then [BackedOff (backoffDelay cfg attempt)] else [] in
          let rest := attemptLoop cfg w k req parseFn remaining' (S attempt) (Some lastError) in
          mkRun (outcome rest) (S (attempts rest)) (here ++ pause ++ trace rest)%list
    end
end.

Definition executeRequest {T : Type} (svc : t) (w : World) (k : nat)
  (req : Request) (parseFn : Response -> Completion T) : Run T :=
attemptLoop (retryConfig svc) w k req parseFn (S (maxRetries (retryConfig svc))) 0 None.

(** The back-off pauses of a run, in order. *)
Definition backoffs (events : list Event) : list Z :=
flat_map (fun e => match e with BackedOff d => [d] | _ => [] end) events.

(** *** getVolumes *)

Definition windowName (window : Window) : string :=
match window with
| W24h => "24h"
| W7d => "7d"
| W30d => "30d"
end.

(** [estimateVolumeForWindow] *)
Definition estimateVolumeForWindow (window : Window) : number :=
match window with
| W24h => Number_of_bigint 5000000
| W7d => Number_of_bigint 35000000
| W30d => Number_of_bigint 150000000
end.

(** The parse callback of [getVolumes]. *)
Definition parseVolume (window : Window) (response : Response) : Completion VolumeWindow.t :=
data <- readJson response ;;
v1 <- prop data "volumeUsd" ;;
v2 <- prop data ("volume" ++ windowName window) ;;
v3 <- prop data "total" ;;
Returned (VolumeWindow.mk window
            (or_else (or_else (or_else v1 v2) v3) (JNum (S754_zero false)))
            (arrival response)).

(** The loop of [getVolumes], from the k-th fetch on; the second component
    is the number of fetches issued.  Every window pushes one entry: the
    parsed one, or the estimate of the [catch] block. *)
Fixpoint getVolumesFrom (svc : t) (w : World) (k : nat) (windows : list Window)
  : list VolumeWindow.t * nat :=
match windows with
| [] => ([], 0%nat)
| window :: rest =>
    let run := executeRequest svc w k GetVolume (parseVolume window) in
    let k' := (k + attempts run)%nat in
    let volume :=
      match outcome run with
      | Returned volume => volume
      | Threw _ => VolumeWindow.mk window (JNum (estimateVolumeForWindow window)) (clock w k')
      end in
    let '(volumes, n) := getVolumesFrom svc w k' rest in
    (volume :: volumes, (attempts run + n)%nat)
end.

Definition getVolumes (svc : t) (w : World) (windows : list Window) : list VolumeWindow.t :=
fst (getVolumesFrom svc w 0 windows).

(** *** getRates *)

(** [BigInt(10) ** BigInt(decimals)] *)
Definition multiplier (decimals : nat) : Z := 10 ^ Z.of_nat decimals.

(** [10 ** decimals].  The power of two numbers is left to the engine
    ("implementation-approximated").  Up to 22 decimals the power of ten
    is a binary64 number and the engines return it; what is stated about
    the value of an estimate is stated for that range.  Beyond it the
    correctly rounded power stands here, from which an engine may differ
    in the last place. *)
Definition exponentiate10 (decimals : nat) : number :=
Number_of_bigint (10 ^ Z.of_nat decimals).

(** [estimateFeesUsd]: 5 basis points of the normalised amount. *)
Definition estimateFeesUsd (amount : Z) (decimals : nat) : number :=
let feeBps := Number_of_bigint 5 in
let normalizedAmount := fdiv (Number_of_bigint amount) (exponentiate10 decimals) in
fmul normalizedAmount (fdiv feeBps (Number_of_bigint 10000)).

Definition normalizeRate (source destination : Asset) (amountIn : string)
  (apiData : JsVal) (now : Timestamp) : Completion Rate.t :=
amountInNum <- BigInt_of_string amountIn ;;
a1 <- prop apiData "amountOut" ;;
a2 <- prop apiData "outputAmount" ;;
a3 <- prop apiData "amount" ;;
a4 <- prop apiData "amountOutMin" ;;
let amountOutRaw := or_else (or_else (or_else a1 a2) a3) a4 in
if negb (truthy amountOutRaw) then throwError Error_ "Missing amountOut in API response"
else
  amountOutNum <- BigInt_of_String_of_value amountOutRaw ;;
  let sourceMultiplier := multiplier (decimals source) in
  let destMultiplier := multiplier (decimals destination) in
  let amountInNormalized := fdiv (Number_of_bigint amountInNum) (Number_of_bigint sourceMultiplier) in
  let amountOutNormalized := fdiv (Number_of_bigint amountOutNum) (Number_of_bigint destMultiplier) in
  if feqb amountInNormalized (S754_zero false) then throwError Error_ "AmountIn cannot be zero"
  else
    let effectiveRate := fdiv amountOutNormalized amountInNormalized in
    f1 <- prop apiData "fee" ;;
    f2 <- prop apiData "totalFees" ;;
    f3 <- prop apiData "feeUsd" ;;
    let feeAmount := or_else (or_else (or_else f1 f2) f3) (JNum (S754_zero false)) in
    let feeInUsd :=
      match isUsableNumber feeAmount with
      | Some fee => fee
      | None => estimateFeesUsd amountInNum (decimals source)
      end in
    Returned (Rate.mk source destination
                (BigInt_toString amountInNum) (BigInt_toString amountOutNum)
                effectiveRate feeInUsd now).

(** The literal [0.995]. *)
Definition rateMultiplier : number := S754_finite false 8962163258467287 (-53).

(** [estimateRate], the fallback of [getRates]. *)
Definition estimateRate (source destination : Asset) (amountIn : string)
  (now : Timestamp) : Completion Rate.t :=
amountInNum <- BigInt_of_string amountIn ;;
let sourceMultiplier := multiplier (decimals source) in
let destMultiplier := multiplier (decimals destination) in
let amountInNormalized := fdiv (Number_of_bigint amountInNum) (Number_of_bigint sourceMultiplier) in
let amountOutNormalized := fmul amountInNormalized rateMultiplier in
match floorOfNumber (fmul amountOutNormalized (Number_of_bigint destMultiplier)) with
| None => throwError RangeError_ "The number cannot be converted to a BigInt because it is not an integer"
| Some amountOutNum =>
    let effectiveRate := fdiv amountOutNormalized amountInNormalized in
    let feesUsd := estimateFeesUsd amountInNum (decimals source) in
    Returned (Rate.mk source destination
                (BigInt_toString amountInNum) (BigInt_toString amountOutNum)
                effectiveRate feesUsd now)
end.

(** The two nested loops of [getRates] over the pairs (route, notional). *)
Fixpoint getRatesFrom (svc : t) (w : World) (k : nat) (pairs : list (Route * string))
  : Completion (list Rate.t) :=
match pairs with
| [] => Returned []
| (route, notional) :: rest =>
    let run := executeRequest svc w k (PostQuote route notional)
                 (fun response =>
                    data <- readJson response ;;
                    normalizeRate (source route) (destination route) notional data
                      (arrival response)) in
    let k' := (k + attempts run)%nat in
    rate <- match outcome run with
            | Returned rate => Returned rate
            | Threw _ => estimateRate (source route) (destination route) notional (clock w k')
            end ;;
    rates <- getRatesFrom svc w k' rest ;;
    Returned (rate :: rates)
end.

Definition getRates (svc : t) (w : World) (routes : list Route) (notionals : list string)
  : Completion (list Rate.t) :=
getRatesFrom svc w 0 (list_prod routes notionals).

(** *** The liquidity probe *)

(** [calculateSlippage] *)
Definition calculateSlippage (route : Route) (amountIn : string) (quote : JsVal)
  : Completion number :=
amountInNum <- BigInt_of_string amountIn ;;
q1 <- prop quote "amountOut" ;;
q2 <- prop quote "outputAmount" ;;
amountOutNum <- BigInt_of_value (or_else (or_else q1 q2) (JNum (S754_zero false))) ;;
let sourceMultiplier := multiplier (decimals (source route)) in
let destMultiplier := multiplier (decimals (destination route)) in
let expectedOut := Z.quot (amountInNum * destMultiplier) sourceMultiplier in
let slippage :=
  fdiv (fmul (Number_of_bigint (expectedOut - amountOutNum)) (Number_of_bigint 10000))
       (Number_of_bigint expectedOut) in
Returned (fabs slippage).

Record SearchState : Type := mkSearch
  { minAmount : Z; maxAmount : Z; bestAmount : Z }.

Definition initialSearch : SearchState := mkSearch 1000 10000000 1000.

(** [Math.floor((minAmount + maxAmount) / 2)] *)
Definition testAmountOf (st : SearchState) : Z := (minAmount st + maxAmount st) / 2.

(** [(BigInt(amount) * BigInt(10) ** BigInt(decimals)).toString()] *)
Definition inSmallestUnits (route : Route) (amount : Z) : string :=
BigInt_toString (amount * multiplier (decimals (source route))).

(** What the [try] block of one iteration evaluates before the [if]. *)
Definition probe (svc : t) (w : World) (k : nat) (route : Route) (testAmount : Z)
  : Run number :=
let testAmountInSmallestUnits := inSmallestUnits route testAmount in
let run := executeRequest svc w k (PostQuote route testAmountInSmallestUnits) readJson in
mkRun (quote <- outcome run ;; calculateSlippage route testAmountInSmallestUnits quote)
      (attempts run) (trace run).

(** One iteration of the [for] loop. *)
Definition searchStep (slippageBps : number) (st : SearchState) (measured : Completion number)
  : SearchState :=
let testAmount := testAmountOf st in
match measured with
| Returned actualSlippage =>
    if fleb actualSlippage slippageBps
    then mkSearch (testAmount + 1) (maxAmount st) testAmount
    else mkSearch (minAmount st) (testAmount - 1) (bestAmount st)
| Threw _ => mkSearch (minAmount st) (testAmount - 1) (bestAmount st)
end.

Record Search : Type := mkSearchRun
  { final : SearchState;
    probed : list Z;          (* the test amounts quoted, in order *)
    fetches : nat }.

Fixpoint searchLoop (svc : t) (w : World) (route : Route) (slippageBps : number)
  (iterations k : nat) (st : SearchState) : Search :=
match iterations with
| O => mkSearchRun st [] 0
| S iterations' =>
    let run := probe svc w k route (testAmountOf st) in
    let rest := searchLoop svc w route slippageBps iterations' (k + attempts run)
                  (searchStep slippageBps st (outcome run)) in
    mkSearchRun (final rest) (testAmountOf st :: probed rest) (attempts run + fetches rest)
end.

Definition search (svc : t) (w : World) (route : Route) (slippageBps : number) : Search :=
searchLoop svc w route slippageBps 20 0 initialSearch.

Definition findMaxLiquidity (svc : t) (w : World) (route : Route) (slippageBps : number)
  : Completion LiquidityThreshold.t :=
Returned (LiquidityThreshold.mk
            (inSmallestUnits route (bestAmount (final (search svc w route slippageBps))))
            slippageBps).

(** [estimateLiquidityAmount] *)
Definition estimateLiquidityAmount (asset : Asset) (slippageBps : Z) : string :=
let baseLiquidityUsd := if slippageBps =? 50 then 2000000 else 1000000 in
BigInt_toString (baseLiquidityUsd * multiplier (decimals asset)).

(** [getLiquidityDepth].  The two searches of a route run under
    [Promise.all]; the i-th route observes the views [2 i] and [2 i + 1]. *)
Fixpoint getLiquidityDepthFrom (svc : t) (views : nat -> World) (i : nat)
  (routes : list Route) : list LiquidityDepth.t :=
match routes with
| [] => []
| route :: rest =>
    let w50 := views (2 * i)%nat in
    let w100 := views (2 * i + 1)%nat in
    let both :=
      t50 <- findMaxLiquidity svc w50 route (Number_of_bigint 50) ;;
      t100 <- findMaxLiquidity svc w100 route (Number_of_bigint 100) ;;
      Returned [t50; t100] in
    let measuredAt := clock w50 (fetches (search svc w50 route (Number_of_bigint 50))) in
    let entry :=
      match both with
      | Returned thresholds => LiquidityDepth.mk route thresholds measuredAt
      | Threw _ =>
          LiquidityDepth.mk route
            [ LiquidityThreshold.mk (estimateLiquidityAmount (source route) 50)
                (Number_of_bigint 50);
              LiquidityThreshold.mk (estimateLiquidityAmount (source route) 100)
                (Number_of_bigint 100) ]
            measuredAt
      end in
    entry :: getLiquidityDepthFrom svc views (S i) rest
end.

Definition getLiquidityDepth (svc : t) (views : nat -> World) (routes : list Route)
  : list LiquidityDepth.t :=
getLiquidityDepthFrom svc views 0 routes.

(** *** getListedAssets *)

Definition getFallbackAssets : list Asset :=
[ mkAsset "1" "0xA0b86991c6218b36c1d19D4a2e9Eb0cE3606eB48" "USDC" 6;
  mkAsset "1" "0xdAC17F958D2ee523a2206206994597C13D831ec7" "USDT" 6;
  mkAsset "137" "0x2791Bca1f2de4661ED88A30C99A7a9449Aa84174" "USDC" 6;
  mkAsset "42161" "0xFF970A61A04b1cA14834A43f5dE4533eBDDB5CC8" "USDC" 6;
  mkAsset "56" "0x8AC76a51cc950d9822D68b83fE1Ad97B32Cd580d" "USDC" 18;
  mkAsset "43114" "0xB97EF9Ef8734C71904D8002F8b6Bc66Dd9c48a6E" "USDC" 6;
  mkAsset "1399811149" "EPjFWdd5AufqSSqeM2qN1xzybapC8G4wEGGkZwyTDt1v" "USDC" 6 ].

(** [getListedAssets].  The mapping of the payload to assets is the
    parameter [mapAssets]: it walks an array, which the payload model
    leaves out. *)
Definition getListedAssets (svc : t) (w : World)
  (mapAssets : JsVal -> Completion (list Asset)) : ListedAssets.t :=
let run := executeRequest svc w 0 GetAssets
             (fun response => data <- readJson response ;; mapAssets data) in
match outcome run with
| Returned assets => ListedAssets.mk assets (clock w (attempts run))
| Threw _ => ListedAssets.mk getFallbackAssets (clock w (attempts run))
end.

(** *** getSnapshot *)

Record SnapshotParams : Type := mkParams
  { routes : list Route;
    notionals : list string;
    includeWindows : option (list Window) }.

(** The views of the four branches of [Promise.all]. *)
Record Views : Type := mkViews
  { volumesView : World;
    ratesView : World;
    liquidityViews : nat -> World;
    assetsView : World }.

(** [getSnapshot].  Of the four branches only [getRates] can reject. *)
Definition getSnapshot (svc : t) (v : Views)
  (mapAssets : JsVal -> Completion (list Asset)) (params : SnapshotParams)
  : Effect.Exit JsError ProviderSnapshot.t :=
Effect.tryPromise
  (let volumes :=
     getVolumes svc (volumesView v)
       (match includeWindows params with
        | Some windows => windows
        | None => [W24h]
        end) in
   let liquidity := getLiquidityDepth svc (liquidityViews v) (routes params) in
   let listedAssets := getListedAssets svc (assetsView v) mapAssets in
   rates <- getRates svc (ratesView v) (routes params) (notionals params) ;;
   Returned (ProviderSnapshot.mk volumes rates liquidity listedAssets))
  (fun error => mkError Error_ ("Failed to fetch snapshot: " ++ messageOf error)).

(** *** ping *)

Definition okResult (now : Timestamp) : PingResult.t := PingResult.mk "ok" now.

(** [ping]: the [catch] of [Effect.tryPromise] builds the value the effect
    fails with. *)
Definition ping (svc : t) (w : World) : Effect.Exit PingResult.t PingResult.t :=
let run := executeRequest svc w 0 GetHealth
             (fun _ => Returned (JObj [("status", JStr "ok")])) in
let now := clock w (attempts run) in
Effect.tryPromise
  (_ <- outcome run ;; Returned (okResult now))
  (fun _ => okResult now).

End WormholeService.

(* ------------------------------------------------------------------ *)
(** ** The operations-based variant of the service

    The second [WormholeService] class of the repository reads the
    Wormholescan [operations] endpoint and has no retry loop.  Its health
    probe is the one embedded here. *)

Module WormholescanService.
Import Js Upstream.

Record t : Type := mk
  { baseUrl : string;
    timeout : Z;
    requestsPerSecond : Q;
    rateLimiter : RateLimiter.t }.

Definition new (baseUrl : string) (timeout : Z) (requestsPerSecond : Q) : t :=
mk baseUrl timeout requestsPerSecond
   (RateLimiter.create (Qmax 100 (1000 / requestsPerSecond)) requestsPerSecond).

(** The [try] of the probe: one slot, one [fetch] of a single operation. *)
Definition pingAttempt (w : World) : Completion string :=
match fetch w 0 (GetOperations 1) with
| Rejected t => Threw t
| Responded r =>
    if negb (ok r)
    then throwError Error_
           ("Health check returned " ++ BigInt_toString (Z.of_N (status r)))
    else Returned "ok"
end.

(** [ping]: the failure of the attempt is caught by [Effect.catchAll], so
    the error channel is empty. *)
Definition ping (svc : t) (w : World) : Effect.Exit Empty_set PingResult.t :=
let pingResult :=
  Effect.catchAll
    (Effect.tryPromise (pingAttempt w)
       (fun error => mkError Error_ ("Health check failed: " ++ messageOf error)))
    (fun _ => Effect.succeed "ok") in
Effect.map pingResult (fun status => PingResult.mk status (clock w 1)).

End WormholescanService.

(* ------------------------------------------------------------------ *)
(** ** Concrete upstreams and inputs used by the examples below *)

Module Scenarios.
Import Js Upstream.

Definition tick (k : nat) : Timestamp := mkTimestamp (Z.of_nat k).

Definition respond (status : N) (statusText : string) (body : option JsVal) : FetchResult :=
Responded (mkResponse status statusText None body (mkTimestamp 0)).

Definition usdcEthereum : Asset :=
mkAsset "1" "0xA0b86991c6218b36c1d19D4a2e9Eb0cE3606eB48" "USDC" 6.

Definition usdcPolygon : Asset :=
mkAsset "137" "0x2791Bca1f2de4661ED88A30C99A7a9449Aa84174" "USDC" 6.

Definition usdcRoute : Route := mkRoute usdcEthereum usdcPolygon.


(** The service of the unit tests: 10 requests per second, 3 retries. *)
Definition service : WormholeService.t :=
WormholeService.newDefault "https://api.wormhole.com" "test-api-key" 5000.

Definition volumePayload : JsVal := JObj [("volumeUsd", JNum (Number_of_bigint 10000000))].

(** Three answers 503, then a volume. *)
Definition flaky : World :=
mkWorld (fun k _ => if (k <? 3)%nat
                    then respond 503 "Service Unavailable" None
                    else respond 200 "OK" (Some volumePayload))
        tick.

(** Three answers 500 whose status text reads "Authentication failed",
    then a volume. *)
Definition gateway : World :=
mkWorld (fun k _ => if (k <? 3)%nat
                    then respond 500 "Authentication failed" None
                    else respond 200 "OK" (Some volumePayload))
        tick.

(** Every request is answered 401. *)
Definition unauthorized : World :=
mkWorld (fun _ _ => respond 401 "Unauthorized" None) tick.

(** Total outage: every [fetch] rejects, as the mock of the unit tests does. *)
Definition outage : World :=
mkWorld (fun _ _ => Rejected (ThrownError (mkError Error_ "API unavailable"))) tick.

(** A market that quotes one for one: the amount asked for comes back. *)
Definition parMarket : World :=
mkWorld (fun _ req =>
           match req with
           | PostQuote _ amount => respond 200 "OK" (Some (JObj [("amountOut", JStr amount)]))
           | _ => respond 404 "Not Found" None
           end)
        tick.

Definition everywhere (w : World) : WormholeService.Views :=
WormholeService.mkViews w w (fun _ => w) w.

Definition noAssets (data : JsVal) : Completion (list Asset) := Returned [].

(** The quote of the worked example of the README: no fee field. *)
Definition quote995 : JsVal := JObj [("amountOut", JStr "995000")].

(** The snapshot the service returns when every request is answered 401. *)
Definition unauthorizedSnapshot : ProviderSnapshot.t :=
Eval vm_compute in
  match WormholeService.getSnapshot service (everywhere unauthorized) noAssets
          (WormholeService.mkParams [usdcRoute] ["1000000"] None) with
  | Effect.Success snapshot => snapshot
  | Effect.Failure _ =>
      ProviderSnapshot.mk [] [] [] (ListedAssets.mk [] (mkTimestamp 0))
  end.

End Scenarios.

(* ------------------------------------------------------------------ *)
(** ** Vocabulary of the statements *)

Module Statements.
Import Js Upstream WormholeService.

(** A failed attempt of the kinds the retry policy is described with: an
    answer with a status of 500 or more whose status text does not read
    "Authentication failed", or a rejection that is neither a
    configuration error, nor a [TypeError] mentioning "fetch", nor a
    message mentioning "Authentication failed". *)
Definition retryable (fetched : FetchResult) : bool :=
match fetched with
| Responded r => (500 <=? status r)%N && negb (includes "Authentication failed" (statusText r))
| Rejected t => negb (instanceofPluginConfigurationError t) && negb (terminal (toError t))
end.

(** The answer of the upstream is an unauthorized one. *)
Definition unauthorizedAnswer (fetched : FetchResult) : bool :=
match fetched with
| Responded r => ((status r =? 401) || (status r =? 403))%N
| Rejected _ => false
end.

(** The events of [n] failed attempts, each followed by its pause, and of
    the attempt that ends the run. *)
Definition retriedTrace (cfg : RetryConfig) (req : Request) (first n : nat) : list Event :=
(flat_map (fun i => [SlotAcquired; Fetched req; BackedOff (backoffDelay cfg i)]) (seq first n)
 ++ [SlotAcquired; Fetched req])%list.

Definition configurationError : Thrown :=
ThrownError (mkError PluginConfigurationError_
               "Invalid API credentials or insufficient permissions").

(** The entry [getVolumes] pushes when the request of a window failed. *)
Definition isFallbackVolume (v : VolumeWindow.t) : Prop :=
VolumeWindow.volumeUsd v = JNum (estimateVolumeForWindow (VolumeWindow.window v)).

(** The number a decimal literal [num / den] denotes, for integers that
    are numbers themselves: the quotient, correctly rounded. *)
Definition literal (num den : Z) : number := fdiv (Number_of_bigint num) (Number_of_bigint den).

(** [apiData.amountOut || apiData.outputAmount || apiData.amount ||
    apiData.amountOutMin], on the fields of an object. *)
Definition amountOutRaw (fields : list (string * JsVal)) : JsVal :=
or_else (or_else (or_else (lookup fields "amountOut") (lookup fields "outputAmount"))
                 (lookup fields "amount"))
        (lookup fields "amountOutMin").

(** The rate as the data model defines it, taken exactly:
    [(amountOut / 10^destDecimals) / (amountIn / 10^sourceDecimals)]. *)
Definition exactRate (amountIn amountOut : Z) (sourceDecimals destDecimals : nat) : Q :=
((inject_Z amountOut / inject_Z (multiplier destDecimals))
 / (inject_Z amountIn / inject_Z (multiplier sourceDecimals)))%Q.

(** A quote that carries its output amount as a digit string and nothing else. *)
Definition quoteOf (amountOut : Z) : JsVal :=
JObj [("amountOut", JStr (BigInt_toString amountOut))].

(** The search of [findMaxLiquidity] after [n] iterations. *)
Definition searchAfter (svc : WormholeService.t) (w : World) (route : Route)
  (slippageBps : number) (n : nat) : Search :=
searchLoop svc w route slippageBps n 0 initialSearch.

(** The upstream answers a request the same way whenever it is asked. *)
Definition deterministic (w : World) : Prop :=
forall k k' req, fetch w k req = fetch w k' req.

(** The slippage the service measures when it asks for a quote of
    [amount] whole tokens. *)
Definition realizedSlippage (svc : WormholeService.t) (w : World) (route : Route)
  (amount : Z) : Completion number :=
outcome (probe svc w 0 route amount).

(** An idealised monotonic market: every amount is quoted, and the
    slippage measured does not decrease with the amount. *)
Definition monotonicMarket (svc : WormholeService.t) (w : World) (route : Route) : Prop :=
forall a1 a2, 0 < a1 <= a2 ->
  exists s1 s2,
    realizedSlippage svc w route a1 = Returned s1 /\
    realizedSlippage svc w route a2 = Returned s2 /\
    fleb s1 s2 = true.

(** Whether the quote of [amount] keeps the slippage within [slippageBps]. *)
Definition withinThreshold (svc : WormholeService.t) (w : World) (route : Route)
  (slippageBps : number) (amount : Z) : bool :=
match realizedSlippage svc w route amount with
| Returned actual => fleb actual slippageBps
| Threw _ => false
end.

(** One step of the binary search of the probe over a pass/fail test of
    the midpoint, and [n] steps of it. *)
Definition bisectStep (pass : Z -> bool) (st : SearchState) : SearchState :=
let mid := testAmountOf st in
if pass mid
then mkSearch (mid + 1) (maxAmount st) mid
else mkSearch (minAmount st) (mid - 1) (bestAmount st).

Fixpoint bisect (pass : Z -> bool) (n : nat) (st : SearchState) : SearchState :=
match n with
| O => st
| S n' => bisect pass n' (bisectStep pass st)
end.

(** Two searches, the test of the first implying the test of the second,
    after [done] iterations: either they are still in the same state, with
    a window too wide to close within the iterations left, or they parted
    at some midpoint [m], the narrower test searching below it and the
    wider above. *)
Definition related (done : nat) (narrow wide : SearchState) : Prop :=
(narrow = wide /\
 9999003 <= (maxAmount wide - minAmount wide + 3) * 2 ^ Z.of_nat done /\
 bestAmount wide <= minAmount wide) \/
(exists m,
   minAmount narrow <= m /\ maxAmount narrow <= m - 1 /\ bestAmount narrow <= m /\
   m + 1 <= minAmount wide /\ m - 1 <= maxAmount wide /\ m <= bestAmount wide).

(** [x] is within [tolerance] of [target]. *)
Definition approximately (target tolerance x : number) : bool :=
fleb (fabs (fsub x target)) tolerance.








End Statements.

(* ------------------------------------------------------------------ *)
(** ** Vocabulary of the further properties *)

Module Properties.
Import Js Upstream WormholeService.

(** An answer outside 2xx that is neither 401 nor 403 and whose status
    text does not read "Authentication failed". *)
Definition refused (fetched : FetchResult) : bool :=
match fetched with
| Responded r =>
    negb (ok r) && negb ((status r =? 401) || (status r =? 403))%N
    && negb (includes "Authentication failed" (statusText r))
| Rejected _ => false
end.

(** The message of the error [executeRequest] throws for such an answer
    on its last attempt. *)
Definition httpErrorMessage (r : Response) : string :=
if (status r =? 429)%N
then "Rate limited. Retry after " ++ retryAfterText r ++ " seconds"
else "HTTP " ++ statusString r ++ ": " ++ statusText r.

(** A rejection the [catch] block rethrows at once, and what it rethrows:
    the configuration error itself, any other error after wrapping. *)
Definition rethrownAtOnce (t : Thrown) : bool :=
instanceofPluginConfigurationError t || terminal (toError t).

Definition rethrown (t : Thrown) : Thrown :=
if instanceofPluginConfigurationError t then t else ThrownError (toError t).


Definition fire (l : RateLimiter.t) (fired : Q) : RateLimiter.t :=
RateLimiter.mk (RateLimiter.minIntervalMs l) (RateLimiter.maxRequestsPerSecond l) fired.

(** A search window the 20 iterations cannot close: the bounds stay within
    [1000, 10000000] and the width keeps the two invariants of halving. *)
Definition wideEnough (done : nat) (st : SearchState) : Prop :=
1000 <= minAmount st /\ maxAmount st <= 10000000 /\
9999003 <= (maxAmount st - minAmount st + 3) * 2 ^ Z.of_nat done /\
(maxAmount st - minAmount st + 1) * 2 ^ Z.of_nat done <= 9999001.

(** The fee field the quote is read for:
    [apiData.fee || apiData.totalFees || apiData.feeUsd || 0]. *)
Definition feeAmount (fields : list (string * JsVal)) : JsVal :=
or_else (or_else (or_else (lookup fields "fee") (lookup fields "totalFees"))
                 (lookup fields "feeUsd"))
        (JNum (S754_zero false)).

(** A market with a sharp limit: amounts up to [limit] whole tokens of a
    6-decimal asset are quoted one for one, larger ones are refused. *)
Definition limitedMarket (limit : Z) : World :=
mkWorld (fun _ req =>
           match req with
           | PostQuote _ amount =>
               match StringToBigInt amount with
               | Some a =>
                   if a <=? limit * 1000000
                   then Scenarios.respond 200 "OK" (Some (JObj [("amountOut", JStr amount)]))
                   else Scenarios.respond 422 "Unprocessable Entity" None
               | None => Scenarios.respond 400 "Bad Request" None
               end
           | _ => Scenarios.respond 404 "Not Found" None
           end)
        Scenarios.tick.

(** Every request is answered 404. *)
Definition notFound : World :=
mkWorld (fun _ _ => Scenarios.respond 404 "Not Found" None) Scenarios.tick.

(** The network is unreachable: [fetch] rejects with its [TypeError]. *)
Definition unreachable : World :=
mkWorld (fun _ _ => Rejected (ThrownError (mkError TypeError_ "fetch failed")))
        Scenarios.tick.

(** Two answers 503, then 401. *)
Definition revoked : World :=
mkWorld (fun k _ => if (k <? 2)%nat
                    then Scenarios.respond 503 "Service Unavailable" None
                    else Scenarios.respond 401 "Unauthorized" None)
        Scenarios.tick.

End Properties.

(* ------------------------------------------------------------------ *)
(** * Facts about the conversions *)

Module JsFacts.
Import Js.

(** ** Printing and reading a bigint *)

Arguments digitChar : simpl never.
Arguments digitValue : simpl never.
Arguments isDigit : simpl never.
Arguments isWhiteSpace : simpl never.

Lemma digitChar_cases d : 0 <= d < 10 ->
  digitChar d = "0"%char \/ digitChar d = "1"%char \/ digitChar d = "2"%char \/
  digitChar d = "3"%char \/ digitChar d = "4"%char \/ digitChar d = "5"%char \/
  digitChar d = "6"%char \/ digitChar d = "7"%char \/ digitChar d = "8"%char \/
  digitChar d = "9"%char.
Proof.
  intros H.
  assert (E : d = 0 \/ d = 1 \/ d = 2 \/ d = 3 \/ d = 4 \/ d = 5 \/ d = 6 \/ d = 7 \/ d = 8 \/ d = 9) by lia.
  repeat (destruct E as [E|E]; [subst d; tauto|]). subst d; tauto.
Qed.

Lemma digitValue_digitChar d : 0 <= d < 10 -> digitValue (digitChar d) = Some d.
Proof.
  intros H.
  assert (E : d = 0 \/ d = 1 \/ d = 2 \/ d = 3 \/ d = 4 \/ d = 5 \/ d = 6 \/ d = 7 \/ d = 8 \/ d = 9) by lia.
  repeat (destruct E as [E|E]; [subst d; reflexivity|]). subst d; reflexivity.
Qed.

Lemma isDigit_digitChar d : 0 <= d < 10 -> isDigit (digitChar d) = true.
Proof.
  intros H. destruct (digitChar_cases d H) as [E|[E|[E|[E|[E|[E|[E|[E|[E|E]]]]]]]]];
    rewrite E; reflexivity.
Qed.

Lemma isDigit_cases c : isDigit c = true ->
  c = "0"%char \/ c = "1"%char \/ c = "2"%char \/ c = "3"%char \/ c = "4"%char \/
  c = "5"%char \/ c = "6"%char \/ c = "7"%char \/ c = "8"%char \/ c = "9"%char.
Proof.
  unfold isDigit. intros H. apply andb_prop in H as [H1 H2].
  apply Z.leb_le in H1. apply Z.leb_le in H2.
  rewrite <- (ascii_nat_embedding c).
  assert (E : exists d, 0 <= d < 10 /\ nat_of_ascii c = (48 + Z.to_nat d)%nat).
  { exists (Z.of_nat (nat_of_ascii c) - 48). split; lia. }
  destruct E as (d & Hd & E). rewrite E. exact (digitChar_cases d Hd).
Qed.

Lemma digitsOf_S fuel n acc :
  digitsOf (S fuel) n acc =
  if n <? 10 then String (digitChar (n mod 10)) acc
  else digitsOf fuel (n / 10) (String (digitChar (n mod 10)) acc).
Proof. reflexivity. Qed.

Lemma digitsOf_digits fuel : forall n acc, 0 <= n ->
  stringForall isDigit acc = true -> stringForall isDigit (digitsOf fuel n acc) = true.
Proof.
  induction fuel as [|fuel IH]; intros n acc Hn Hacc; [exact Hacc|].
  rewrite digitsOf_S.
  assert (Hd : stringForall isDigit (String (digitChar (n mod 10)) acc) = true).
  { cbn [stringForall]. rewrite isDigit_digitChar by (apply Z.mod_pos_bound; lia). exact Hacc. }
  destruct (n <? 10); [exact Hd|].
  apply IH; [apply Z.div_pos; lia|exact Hd].
Qed.

Lemma digitsOf_nonempty fuel n acc : exists c rest, digitsOf (S fuel) n acc = String c rest.
Proof.
  revert n acc. induction fuel as [|fuel IH]; intros n acc; rewrite digitsOf_S;
    (destruct (n <? 10); [eauto|]).
  - cbn [digitsOf]. eauto.
  - apply IH.
Qed.

Lemma parseDigits_digitsOf fuel : forall n acc, 0 <= n -> n < 10 ^ Z.of_nat fuel ->
  exists j, 0 <= j /\
    forall a, parseDigits 10 (digitsOf fuel n acc) a = parseDigits 10 acc (a * 10 ^ j + n).
Proof.
  induction fuel as [|fuel IH]; intros n acc Hn Hlt.
  - exists 0. split; [lia|]. intros a. cbn [digitsOf].
    change (10 ^ Z.of_nat 0) with 1 in Hlt. f_equal; rewrite ?Z.pow_0_r; lia.
  - rewrite digitsOf_S. destruct (n <? 10) eqn:E.
    + apply Z.ltb_lt in E. exists 1. split; [lia|]. intros a. cbn [parseDigits].
      rewrite Z.mod_small by lia. rewrite digitValue_digitChar by lia.
      replace (n <? 10) with true by (symmetry; apply Z.ltb_lt; lia).
      f_equal; rewrite ?Z.pow_1_r; lia.
    + apply Z.ltb_ge in E.
      destruct (IH (n / 10) (String (digitChar (n mod 10)) acc)) as (j & Hj & H).
      * apply Z.div_pos; lia.
      * apply Z.div_lt_upper_bound; [lia|].
        rewrite Nat2Z.inj_succ, Z.pow_succ_r in Hlt by lia. exact Hlt.
      * exists (j + 1). split; [lia|]. intros a. rewrite H. cbn [parseDigits].
        pose proof (Z.mod_pos_bound n 10 ltac:(lia)) as Hm.
        rewrite digitValue_digitChar by lia.
        replace (n mod 10 <? 10) with true by (symmetry; apply Z.ltb_lt; lia).
        pose proof (Z.div_mod n 10 ltac:(lia)).
        f_equal; rewrite ?Z.pow_add_r, ?Z.pow_1_r by lia; lia.
Qed.

Lemma lt_pow10_log2 n : 0 <= n -> n < 10 ^ Z.of_nat (S (Z.to_nat (Z.log2 n))).
Proof.
  intros Hn. rewrite Nat2Z.inj_succ, Z2Nat.id by apply Z.log2_nonneg.
  destruct (Z.eq_dec n 0) as [->|Hz]; [reflexivity|].
  pose proof (Z.log2_spec n ltac:(lia)) as [_ H].
  apply Z.lt_le_trans with (1 := H).
  apply Z.pow_le_mono_l. lia.
Qed.

Lemma parse_digitsOf n : 0 <= n ->
  parseNonEmptyDigits 10 (digitsOf (S (Z.to_nat (Z.log2 n))) n "") = Some n.
Proof.
  intros Hn. destruct (digitsOf_nonempty (Z.to_nat (Z.log2 n)) n "") as (c & rest & E).
  unfold parseNonEmptyDigits. rewrite E. rewrite <- E.
  destruct (parseDigits_digitsOf _ n "" Hn (lt_pow10_log2 n Hn)) as (j & _ & H).
  rewrite H. simpl. reflexivity.
Qed.

Lemma plainChar_spec c :
  plainChar c = true ->
  isWhiteSpace c = false /\
  (forall a, isWhiteSpace2 c a = false) /\ (forall a, isWhiteSpace2 a c = false) /\
  (forall a b, isWhiteSpace3 c a b = false) /\ (forall a b, isWhiteSpace3 a b c = false).
Proof.
  unfold plainChar. intros H. apply andb_prop in H as [Hw Hn].
  apply negb_true_iff in Hw. apply Nat.ltb_lt in Hn.
  assert (Hne : forall k, (128 <= k)%nat -> (nat_of_ascii c =? k)%nat = false)
    by (intros k Hk; apply Nat.eqb_neq; lia).
  assert (Hle : (128 <=? nat_of_ascii c)%nat = false) by (apply Nat.leb_gt; lia).
  split; [exact Hw|]. unfold isWhiteSpace2, isWhiteSpace3.
  repeat split; intros;
    rewrite ?Hne by lia; rewrite ?Hle;
    cbn [andb orb]; rewrite ?andb_false_r; reflexivity.
Qed.

Lemma trimLeft_plain w2 w3 c rest :
  isWhiteSpace c = false -> (forall a, w2 c a = false) -> (forall a b, w3 c a b = false) ->
  trimLeft w2 w3 (String c rest) = String c rest.
Proof.
  intros H1 H2 H3. cbn [trimLeft]. rewrite H1.
  destruct rest as [|c2 rest]; [reflexivity|]. rewrite H2.
  destruct rest as [|c3 rest]; [reflexivity|]. rewrite H3. reflexivity.
Qed.

Lemma stringForall_list P s :
  stringForall P s = forallb P (list_ascii_of_string s).
Proof. induction s; simpl; congruence. Qed.

Lemma stringForall_reverse P s : stringForall P (reverse s) = stringForall P s.
Proof.
  unfold reverse. rewrite !stringForall_list, list_ascii_of_string_of_list_ascii.
  induction (list_ascii_of_string s) as [|c l IH]; simpl; [reflexivity|].
  rewrite forallb_app, IH. simpl. rewrite andb_true_r. apply andb_comm.
Qed.

Lemma reverse_involutive s : reverse (reverse s) = s.
Proof.
  unfold reverse. rewrite list_ascii_of_string_of_list_ascii, rev_involutive.
  apply string_of_list_ascii_of_string.
Qed.

Lemma trim_id s : stringForall plainChar s = true -> trim s = s.
Proof.
  intros H. unfold trim, trimStart, trimEnd.
  assert (Hs : trimLeft isWhiteSpace2 isWhiteSpace3 s = s).
  { destruct s as [|c rest]; [reflexivity|].
    cbn [stringForall] in H. apply andb_prop in H as [Hc _].
    destruct (plainChar_spec c Hc) as (H1 & H2 & _ & H3 & _).
    apply trimLeft_plain; assumption. }
  rewrite Hs.
  assert (Hr : stringForall plainChar (reverse s) = true)
    by (rewrite stringForall_reverse; exact H).
  destruct (reverse s) as [|c rest] eqn:E.
  - cbn [trimLeft]. rewrite <- E. apply reverse_involutive.
  - cbn [stringForall] in Hr. apply andb_prop in Hr as [Hc _].
    destruct (plainChar_spec c Hc) as (H1 & _ & H2 & _ & H3).
    rewrite trimLeft_plain by auto. rewrite <- E. apply reverse_involutive.
Qed.

Lemma stringForall_impl (P Q : ascii -> bool) s :
  (forall c, P c = true -> Q c = true) ->
  stringForall P s = true -> stringForall Q s = true.
Proof.
  intros HPQ. induction s as [|c rest IH]; simpl; [reflexivity|].
  intros H. apply andb_prop in H as [H1 H2]. rewrite (HPQ c H1), (IH H2). reflexivity.
Qed.

Lemma isDigit_plainChar c : isDigit c = true -> plainChar c = true.
Proof.
  intros H. destruct (isDigit_cases c H) as [E|[E|[E|[E|[E|[E|[E|[E|[E|E]]]]]]]]];
    rewrite E; reflexivity.
Qed.

Lemma StringToBigInt_digits s : s <> "" -> stringForall isDigit s = true ->
  StringToBigInt s = parseNonEmptyDigits 10 s.
Proof.
  intros Hne Hd. unfold StringToBigInt.
  rewrite trim_id by (apply stringForall_impl with (1 := isDigit_plainChar); exact Hd).
  destruct s as [|c rest]; [congruence|].
  simpl in Hd. apply andb_prop in Hd as [Hc Hrest].
  destruct (isDigit_cases c Hc) as [E|[E|[E|[E|[E|[E|[E|[E|[E|E]]]]]]]]]; subst c;
    try reflexivity.
  destruct rest as [|c2 rest2]; [reflexivity|].
  simpl in Hrest. apply andb_prop in Hrest as [Hc2 _].
  destruct (isDigit_cases c2 Hc2) as [E|[E|[E|[E|[E|[E|[E|[E|[E|E]]]]]]]]]; subst c2;
    reflexivity.
Qed.

Theorem StringToBigInt_toString z : StringToBigInt (BigInt_toString z) = Some z.
Proof.
  unfold BigInt_toString. destruct (z <? 0) eqn:E.
  - apply Z.ltb_lt in E.
    set (ds := digitsOf (S (Z.to_nat (Z.log2 (- z)))) (- z) "").
    assert (Hd : stringForall isDigit ds = true) by (apply digitsOf_digits; [lia|reflexivity]).
    unfold StringToBigInt.
    rewrite trim_id.
    + fold ds. change (option_map Z.opp (parseNonEmptyDigits 10 ds) = Some z).
      unfold ds. rewrite parse_digitsOf by lia. simpl. f_equal. lia.
    + cbn [stringForall]. apply andb_true_intro. split; [reflexivity|].
      fold ds. apply stringForall_impl with (1 := isDigit_plainChar). exact Hd.
  - apply Z.ltb_ge in E.
    destruct (digitsOf_nonempty (Z.to_nat (Z.log2 z)) z "") as (c & rest & Hs).
    rewrite StringToBigInt_digits.
    + apply parse_digitsOf. exact E.
    + rewrite Hs. discriminate.
    + apply digitsOf_digits; [exact E|reflexivity].
Qed.

Corollary BigInt_of_toString z : BigInt_of_string (BigInt_toString z) = Returned z.
Proof. unfold BigInt_of_string. rewrite StringToBigInt_toString. reflexivity. Qed.

(** ** Rounding to binary64 *)

Lemma digits2_pos_size p : digits2_pos p = Pos.size p.
Proof. induction p; simpl; congruence. Qed.

Lemma Zdigits2_bounds p :
  2 ^ (Zpos (digits2_pos p) - 1) <= Zpos p < 2 ^ Zpos (digits2_pos p).
Proof.
  rewrite digits2_pos_size. split.
  - pose proof (Pos.size_le p) as H.
    assert (Hs : Zpos (Pos.size p) = Z.succ (Zpos (Pos.size p) - 1)) by lia.
    assert (2 ^ Zpos (Pos.size p) <= 2 * Zpos p).
    { change 2 with (Zpos 2) at 1. rewrite <- Pos2Z.inj_pow. rewrite <- Pos2Z.inj_mul. apply Pos2Z.pos_le_pos. exact H. }
    rewrite Hs in H0. rewrite Z.pow_succ_r in H0 by lia. lia.
  - pose proof (Pos.size_gt p) as H.
    change 2 with (Zpos 2). rewrite <- Pos2Z.inj_pow. apply Pos2Z.pos_lt_pos. exact H.
Qed.

(* shr_1 halves the mantissa *)
Lemma shr_1_m mrs : 0 <= shr_m mrs -> shr_m (shr_1 mrs) = shr_m mrs / 2.
Proof.
  destruct mrs as [m r s]; simpl. intros Hm.
  destruct m as [|p|p]; try lia; simpl.
  - reflexivity.
  - destruct p; simpl.
    + rewrite Pos2Z.inj_xI. apply Z.div_unique with (r:=1); lia.
    + rewrite Pos2Z.inj_xO. apply Z.div_unique with (r:=0); lia.
    + reflexivity.
Qed.

Lemma pow2_xO p : 2 ^ Zpos p~0 = 2 ^ Zpos p * 2 ^ Zpos p.
Proof. replace (Zpos p~0) with (Zpos p + Zpos p) by lia. apply Z.pow_add_r; lia. Qed.

Lemma pow2_xI p : 2 ^ Zpos p~1 = 2 * (2 ^ Zpos p * 2 ^ Zpos p).
Proof.
  replace (Zpos p~1) with (1 + (Zpos p + Zpos p)) by lia.
  rewrite Z.pow_add_r by lia. rewrite Z.pow_add_r by lia. reflexivity.
Qed.

Lemma iter_pos_shr_1_m p : forall mrs, 0 <= shr_m mrs ->
  shr_m (iter_pos shr_1 p mrs) = shr_m mrs / 2 ^ Zpos p.
Proof.
  induction p; intros mrs Hm; simpl iter_pos.
  - assert (H1 : 0 <= shr_m (shr_1 mrs)) by (rewrite shr_1_m by lia; apply Z.div_pos; lia).
    assert (H2 : 0 <= shr_m (iter_pos shr_1 p (shr_1 mrs))) by (rewrite IHp by exact H1; apply Z.div_pos; lia).
    rewrite IHp by exact H2. rewrite IHp by exact H1. rewrite shr_1_m by exact Hm.
    rewrite !Z.div_div by lia. rewrite pow2_xI. reflexivity.
  - assert (H2 : 0 <= shr_m (iter_pos shr_1 p mrs)) by (rewrite IHp by exact Hm; apply Z.div_pos; lia).
    rewrite IHp by exact H2. rewrite IHp by exact Hm.
    rewrite !Z.div_div by lia. rewrite pow2_xO. reflexivity.
  - rewrite shr_1_m by exact Hm. reflexivity.
Qed.

Lemma shr_m_nonneg mrs e n : 0 <= shr_m mrs -> 0 <= shr_m (fst (shr mrs e n)).
Proof.
  intros Hm. unfold shr. destruct n; simpl; try exact Hm.
  rewrite iter_pos_shr_1_m by exact Hm. apply Z.div_pos; lia.
Qed.

(* a shift by fewer places than the mantissa has digits leaves a positive mantissa *)
Lemma shr_m_pos m r s e n :
  n < Zdigits2 (Zpos m) ->
  0 < shr_m (fst (shr (Build_shr_record (Zpos m) r s) e n)).
Proof.
  intros Hn. unfold shr. destruct n as [|p|p]; simpl; try lia.
  rewrite iter_pos_shr_1_m by (simpl; lia). simpl shr_m.
  pose proof (Zdigits2_bounds m) as [Hlo _]. simpl in Hn.
  apply Z.div_str_pos. split; [lia|].
  apply Z.le_trans with (2 ^ (Zpos (digits2_pos m) - 1)); [|exact Hlo].
  apply Z.pow_le_mono_r; lia.
Qed.


Lemma shr_snd mrs e n : snd (shr mrs e n) = e + Z.max 0 n.
Proof. unfold shr. destruct n; simpl; lia. Qed.

Lemma round_nearest_even_ge m l : m <= round_nearest_even m l <= m + 1.
Proof. unfold round_nearest_even. destruct l as [|[]]; try destruct (Z.even m); lia. Qed.

Lemma shr_fexp_pos m e l :
  0 < m -> 3 - emax - prec < Zdigits2 m + e ->
  0 < shr_m (fst (shr_fexp prec emax m e l)) /\
  3 - emax - prec <= snd (shr_fexp prec emax m e l).
Proof.
  intros Hm He. unfold shr_fexp. destruct m as [|p|p]; try lia.
  set (n := fexp prec emax (Zdigits2 (Zpos p) + e) - e).
  assert (Hn : n < Zdigits2 (Zpos p)).
  { unfold n, fexp, SpecFloat.emin, prec, emax in *. simpl Zdigits2 in *. lia. }
  split.
  - destruct l as [|[]]; simpl shr_record_of_loc; apply shr_m_pos; exact Hn.
  - rewrite shr_snd. unfold n, fexp, SpecFloat.emin, prec, emax in *. lia.
Qed.

Lemma binary_round_aux_pos sx mx ex lx :
  3 - emax - prec < Zdigits2 (Zpos mx) + ex ->
  (exists m e, binary_round_aux prec emax sx (Zpos mx) ex lx = S754_finite sx m e) \/
  binary_round_aux prec emax sx (Zpos mx) ex lx = S754_infinity sx.
Proof.
  intros He. unfold binary_round_aux.
  destruct (shr_fexp_pos (Zpos mx) ex lx) as [Hm1 He1]; [lia|exact He|].
  destruct (shr_fexp prec emax (Zpos mx) ex lx) as [mrs' e'] eqn:E1. simpl in Hm1, He1.
  pose proof (round_nearest_even_ge (shr_m mrs') (loc_of_shr_record mrs')) as Hr.
  set (m1 := round_nearest_even (shr_m mrs') (loc_of_shr_record mrs')) in *.
  assert (Hm1' : 0 < m1) by lia.
  destruct (shr_fexp_pos m1 e' loc_Exact) as [Hm2 _]; [exact Hm1'| |].
  { destruct m1 as [|q|q]; try lia. simpl Zdigits2. unfold prec, emax in *. lia. }
  destruct (shr_fexp prec emax m1 e' loc_Exact) as [mrs'' e''] eqn:E2. simpl in Hm2.
  destruct (shr_m mrs'') as [|m|m]; try lia.
  destruct (e'' <=? emax - prec); [left; eauto|right; reflexivity].
Qed.

Lemma shl_align_digits mx ex ex' :
  let '(mz, ez) := shl_align mx ex ex' in
  Zpos (digits2_pos mz) + ez = Zpos (digits2_pos mx) + ex.
Proof.
  unfold shl_align. destruct (ex' - ex) as [|d|d] eqn:E; try reflexivity.
  assert (Hd : forall d m, Zpos (digits2_pos (Pos.iter xO m d)) = Zpos (digits2_pos m) + Zpos d).
  { clear. intros d m. revert m. induction d using Pos.peano_ind; intros m.
    - simpl. lia.
    - rewrite Pos.iter_succ. simpl digits2_pos. rewrite Pos2Z.inj_succ, IHd. lia. }
  rewrite Hd. lia.
Qed.

Lemma Number_of_bigint_pos z : 0 < z ->
  (exists m e, Number_of_bigint z = S754_finite false m e) \/
  Number_of_bigint z = S754_infinity false.
Proof.
  intros Hz. destruct z as [|p|p]; try lia.
  unfold Number_of_bigint, binary_normalize, binary_round.
  pose proof (shl_align_digits p 0 (fexp prec emax (Zpos (digits2_pos p) + 0))) as Hd.
  destruct (shl_align p 0 (fexp prec emax (Zpos (digits2_pos p) + 0))) as [mz ez].
  apply binary_round_aux_pos. simpl Zdigits2. unfold prec, emax. lia.
Qed.

End JsFacts.

(* ------------------------------------------------------------------ *)
(** * The retry loop and the volume branch *)

Module RetryFacts.
Import Js Upstream WormholeService Statements JsFacts.

(** ** What [includes] skips *)

Lemma includes_cons needle c rest :
  includes needle (String c rest) = String.prefix needle (String c rest) || includes needle rest.
Proof. reflexivity. Qed.

Lemma includes_skip (first : ascii) (more pre s : string) :
  stringForall (fun c => negb (Ascii.eqb c first)) pre = true ->
  includes (String first more) (pre ++ s) = includes (String first more) s.
Proof.
  induction pre as [|c pre IH]; intros H; [reflexivity|].
  cbn [stringForall] in H. apply andb_prop in H as [Hc Hpre].
  change ((String c pre) ++ s) with (String c (pre ++ s)).
  rewrite includes_cons. cbn [String.prefix].
  destruct (ascii_dec first c) as [->|_].
  - rewrite Ascii.eqb_refl in Hc. discriminate.
  - cbn [orb]. apply IH. exact Hpre.
Qed.

Lemma isDigit_not_A c : isDigit c = true -> negb (Ascii.eqb c "A") = true.
Proof.
  intros H. destruct (isDigit_cases c H) as [E|[E|[E|[E|[E|[E|[E|[E|[E|E]]]]]]]]];
    rewrite E; reflexivity.
Qed.

Lemma statusString_digits r : stringForall isDigit (statusString r) = true.
Proof.
  unfold statusString, BigInt_toString.
  replace (Z.of_N (status r) <? 0) with false by (symmetry; apply Z.ltb_ge; lia).
  apply digitsOf_digits; [lia|reflexivity].
Qed.

Lemma server_error_message r :
  includes "Authentication failed" ("Server error: " ++ statusString r ++ " " ++ statusText r)
  = includes "Authentication failed" (statusText r).
Proof.
  rewrite includes_skip by reflexivity.
  rewrite includes_skip
    by (apply stringForall_impl with (1 := isDigit_not_A); apply statusString_digits).
  rewrite includes_skip by reflexivity. reflexivity.
Qed.

(** ** One attempt *)

Lemma attemptBody_retryable (T : Type) cfg attempt fetched (parseFn : Response -> Completion T) :
  retryable fetched = true -> (attempt < maxRetries cfg)%nat ->
  exists error, attemptBody cfg attempt fetched parseFn = Threw error /\
                instanceofPluginConfigurationError error = false /\
                terminal (toError error) = false.
Proof.
  intros Hr Hlt. destruct fetched as [t|r]; cbn [retryable] in Hr;
    apply andb_prop in Hr as [H1 H2]; apply negb_true_iff in H2.
  - exists t. apply negb_true_iff in H1. cbn [attemptBody]. auto.
  - apply N.leb_le in H1.
    exists (ThrownError (mkError Error_
              ("Server error: " ++ statusString r ++ " " ++ statusText r))).
    split; [|split; [reflexivity|]].
    + cbn [attemptBody]. unfold ok.
      replace (status r <=? 299)%N with false by (symmetry; apply N.leb_gt; lia).
      rewrite andb_false_r. cbn [negb].
      replace (status r =? 429)%N with false by (symmetry; apply N.eqb_neq; lia).
      replace (status r =? 401)%N with false by (symmetry; apply N.eqb_neq; lia).
      replace (status r =? 403)%N with false by (symmetry; apply N.eqb_neq; lia).
      cbn [orb].
      replace (500 <=? status r)%N with true by (symmetry; apply N.leb_le; lia).
      replace (attempt <? maxRetries cfg)%nat with true by (symmetry; apply Nat.ltb_lt; lia).
      reflexivity.
    + unfold terminal. cbn [toError message instanceofTypeError errorClass andb orb].
      rewrite server_error_message. exact H2.
Qed.

Lemma attemptBody_unauthorized (T : Type) cfg attempt fetched (parseFn : Response -> Completion T) :
  unauthorizedAnswer fetched = true ->
  attemptBody cfg attempt fetched parseFn = Threw configurationError.
Proof.
  destruct fetched as [t|r]; cbn [unauthorizedAnswer]; [discriminate|].
  intros H. cbn [attemptBody]. unfold ok.
  assert (Hs : status r = 401%N \/ status r = 403%N).
  { apply orb_prop in H as [H|H]; apply N.eqb_eq in H; auto. }
  replace (status r <=? 299)%N with false by (symmetry; apply N.leb_gt; lia).
  rewrite andb_false_r. cbn [negb].
  replace (status r =? 429)%N with false by (symmetry; apply N.eqb_neq; lia).
  rewrite H. reflexivity.
Qed.

(** ** The loop *)

Lemma attemptLoop_S (T : Type) cfg w k req (parseFn : Response -> Completion T)
  remaining attempt lastError :
  attemptLoop cfg w k req parseFn (S remaining) attempt lastError =
  match attemptBody cfg attempt (fetch w (k + attempt)%nat req) parseFn with
  | Returned v => mkRun (Returned v) 1 [SlotAcquired; Fetched req]
  | Threw error =>
      if instanceofPluginConfigurationError error
      then mkRun (Threw error) 1 [SlotAcquired; Fetched req]
      else if terminal (toError error)
      then mkRun (Threw (ThrownError (toError error))) 1 [SlotAcquired; Fetched req]
      else
        let rest := attemptLoop cfg w k req parseFn remaining (S attempt)
                      (Some (toError error)) in
        mkRun (outcome rest) (S (attempts rest))
          ([SlotAcquired; Fetched req]
           ++ (if (attempt <? maxRetries cfg)%nat
               then [BackedOff (backoffDelay cfg attempt)] else [])
           ++ trace rest)%list
  end.
Proof. reflexivity. Qed.

Lemma attemptLoop_retries (T : Type) cfg w k req (parseFn : Response -> Completion T) r v :
  (forall i, (i < maxRetries cfg)%nat -> retryable (fetch w (k + i)%nat req) = true) ->
  fetch w (k + maxRetries cfg)%nat req = Responded r -> ok r = true -> parseFn r = Returned v ->
  forall d j lastError, (j + d = maxRetries cfg)%nat ->
  attemptLoop cfg w k req parseFn (S d) j lastError
  = mkRun (Returned v) (S d) (retriedTrace cfg req j d).
Proof.
  intros Hfail Hlast Hok Hparse. induction d as [|d IH]; intros j lastError Hj.
  - rewrite attemptLoop_S. replace j with (maxRetries cfg) by lia.
    rewrite Hlast. cbn [attemptBody]. rewrite Hok. cbn [negb]. rewrite Hparse. reflexivity.
  - rewrite attemptLoop_S.
    destruct (attemptBody_retryable T cfg j (fetch w (k + j)%nat req) parseFn)
      as (error & -> & -> & ->); [apply Hfail; lia|lia|].
    rewrite IH by lia. cbn [outcome attempts trace].
    replace (j <? maxRetries cfg)%nat with true by (symmetry; apply Nat.ltb_lt; lia).
    reflexivity.
Qed.

Lemma backoffs_retriedTrace cfg req d : forall j,
  backoffs (retriedTrace cfg req j d) = List.map (backoffDelay cfg) (seq j d).
Proof.
  unfold retriedTrace, backoffs.
  induction d as [|d IH]; intros j; [reflexivity|].
  cbn [seq flat_map List.map app]. f_equal. apply IH.
Qed.


Lemma nth_error_map_seq (A : Type) (f : nat -> A) n : forall first j, (j < n)%nat ->
  nth_error (List.map f (seq first n)) j = Some (f (first + j)%nat).
Proof.
  induction n as [|n IH]; intros first j Hj; [lia|].
  destruct j as [|j]; cbn [seq List.map nth_error].
  - f_equal. f_equal. lia.
  - rewrite IH by lia. f_equal. f_equal. lia.
Qed.

(** A value [executeRequest] returns is one its parse callback returned
    on an answer with a 2xx status. *)
Lemma attemptLoop_returned (T : Type) cfg w k req (parseFn : Response -> Completion T) v :
  forall remaining attempt lastError,
  outcome (attemptLoop cfg w k req parseFn remaining attempt lastError) = Returned v ->
  exists r, ok r = true /\ parseFn r = Returned v.
Proof.
  induction remaining as [|remaining IH]; intros attempt lastError H.
  - cbn in H. discriminate.
  - rewrite attemptLoop_S in H.
    destruct (attemptBody cfg attempt (fetch w (k + attempt)%nat req) parseFn) as [v'|error] eqn:E.
    + cbn [outcome] in H. injection H as ->.
      unfold attemptBody in E. destruct (fetch w (k + attempt)%nat req) as [t|r]; [discriminate|].
      destruct (ok r) eqn:Hok; cbn [negb] in E.
      * exists r. auto.
      * unfold throwError in E.
        destruct (status r =? 429)%N; [discriminate|].
        destruct ((status r =? 401) || (status r =? 403))%N; [discriminate|].
        destruct ((500 <=? status r)%N && (attempt <? maxRetries cfg)%nat); discriminate.
    + destruct (instanceofPluginConfigurationError error); [discriminate|].
      destruct (terminal (toError error)); [discriminate|].
      cbn [outcome] in H. exact (IH _ _ H).
Qed.

Lemma executeRequest_unauthorized (T : Type) svc w k req (parseFn : Response -> Completion T) :
  unauthorizedAnswer (fetch w k req) = true ->
  executeRequest svc w k req parseFn
  = mkRun (Threw configurationError) 1 [SlotAcquired; Fetched req].
Proof.
  intros H. unfold executeRequest. rewrite attemptLoop_S.
  rewrite Nat.add_0_r. rewrite attemptBody_unauthorized by exact H. reflexivity.
Qed.

End RetryFacts.

Module VolumeFacts.
Import Js Upstream WormholeService Statements JsFacts RetryFacts.

Lemma getVolumesFrom_cons svc w k window rest :
  getVolumesFrom svc w k (window :: rest) =
  let run := executeRequest svc w k GetVolume (parseVolume window) in
  let k' := (k + attempts run)%nat in
  let volume :=
    match outcome run with
    | Returned volume => volume
    | Threw _ => VolumeWindow.mk window (JNum (estimateVolumeForWindow window)) (clock w k')
    end in
  (volume :: fst (getVolumesFrom svc w k' rest),
   (attempts run + snd (getVolumesFrom svc w k' rest))%nat).
Proof.
  cbn [getVolumesFrom]. cbv zeta.
  destruct (getVolumesFrom svc w (k + attempts (executeRequest svc w k GetVolume (parseVolume window))) rest).
  reflexivity.
Qed.

Lemma parseVolume_window window r v :
  parseVolume window r = Returned v -> VolumeWindow.window v = window.
Proof.
  unfold parseVolume, bind. destruct (readJson r) as [data|]; [|discriminate].
  destruct (prop data "volumeUsd"); [|discriminate].
  destruct (prop data ("volume" ++ windowName window)); [|discriminate].
  destruct (prop data "total"); [|discriminate].
  intros H. injection H as <-. reflexivity.
Qed.

(** One entry per window, in the order asked, whatever the upstream does. *)
Lemma getVolumes_windows svc w windows : forall k,
  List.map VolumeWindow.window (fst (getVolumesFrom svc w k windows)) = windows.
Proof.
  induction windows as [|window rest IH]; intros k; [reflexivity|].
  rewrite getVolumesFrom_cons. cbv zeta. cbn [fst List.map]. f_equal; [|apply IH].
  destruct (outcome (executeRequest svc w k GetVolume (parseVolume window))) as [v|] eqn:E;
    [|reflexivity].
  destruct (attemptLoop_returned _ _ _ _ _ _ _ _ _ _ E) as (r & _ & Hp).
  exact (parseVolume_window _ _ _ Hp).
Qed.

Lemma getVolumes_unauthorized svc w windows :
  (forall k, unauthorizedAnswer (fetch w k GetVolume) = true) ->
  forall k, Forall isFallbackVolume (fst (getVolumesFrom svc w k windows)).
Proof.
  intros H. induction windows as [|window rest IH]; intros k; [constructor|].
  rewrite getVolumesFrom_cons. cbv zeta. cbn [fst].
  rewrite executeRequest_unauthorized by apply H. cbn [outcome attempts].
  constructor; [reflexivity|apply IH].
Qed.

Lemma getSnapshot_volumes svc v mapAssets params snapshot :
  getSnapshot svc v mapAssets params = Effect.Success snapshot ->
  ProviderSnapshot.volumes snapshot
  = getVolumes svc (volumesView v)
      (match includeWindows params with Some windows => windows | None => [W24h] end).
Proof.
  unfold getSnapshot, Effect.tryPromise, bind.
  destruct (getRates svc (ratesView v) (routes params) (notionals params)); [|discriminate].
  intros H. injection H as <-. reflexivity.
Qed.

End VolumeFacts.

Module RetryClaims.
Import Js Upstream WormholeService Statements JsFacts RetryFacts VolumeFacts.

(** C1, as amended.  With the delays of the constructor (1000 ms, doubled,
    capped at 10000 ms): when the first [maxRetries] attempts each fail in
    a retryable way (a status of 500 or more whose status text does not
    read "Authentication failed", or a rejection the policy does not treat
    as terminal) and the next attempt succeeds, [executeRequest] returns
    the parsed value after exactly [maxRetries + 1] attempts, one pause
    follows each failed attempt, and the pause before attempt [i >= 1] is
    [min(10000, 1000 * 2^(i-1))]. *)
Theorem executeRequest_retries_then_succeeds
  (T : Type) (baseUrl apiKey : string) (timeout : Z) (requestsPerSecond : Q)
  (maxRetries : nat) (w : World) (k : nat) (req : Request)
  (parseFn : Response -> Completion T) (r : Response) (v : T) :
  (forall i, (i < maxRetries)%nat -> retryable (fetch w (k + i)%nat req) = true) ->
  fetch w (k + maxRetries)%nat req = Responded r ->
  ok r = true ->
  parseFn r = Returned v ->
  let svc := WormholeService.new baseUrl apiKey timeout requestsPerSecond maxRetries in
  let run := executeRequest svc w k req parseFn in
  outcome run = Returned v /\
  attempts run = S maxRetries /\
  trace run = retriedTrace (retryConfig svc) req 0 maxRetries /\
  forall i, (1 <= i <= maxRetries)%nat ->
    nth_error (backoffs (trace run)) (i - 1)
    = Some (Z.min 10000 (1000 * 2 ^ (Z.of_nat i - 1))).
Proof.
  intros Hfail Hlast Hok Hparse svc run.
  assert (E : run = mkRun (Returned v) (S maxRetries) (retriedTrace (retryConfig svc) req 0 maxRetries)).
  { unfold run, executeRequest.
    apply (attemptLoop_retries T (retryConfig svc) w k req parseFn r v Hfail Hlast Hok Hparse).
    reflexivity. }
  rewrite E. cbn [outcome attempts trace]. repeat split.
  intros i Hi. rewrite backoffs_retriedTrace.
  rewrite nth_error_map_seq by lia. f_equal.
  unfold backoffDelay. cbn [retryConfig svc WormholeService.new initialDelayMs
    backoffMultiplier maxDelayMs].
  rewrite Z.min_comm. replace (Z.of_nat (0 + (i - 1))) with (Z.of_nat i - 1) by lia.
  reflexivity.
Qed.

Lemma executeRequest_retries_then_succeeds_witness :
  let run := executeRequest Scenarios.service Scenarios.flaky 0 GetVolume (parseVolume W24h) in
  outcome run
  = Returned (VolumeWindow.mk W24h (JNum (Number_of_bigint 10000000)) (mkTimestamp 0)) /\
  attempts run = 4%nat /\
  trace run = retriedTrace (retryConfig Scenarios.service) GetVolume 0 3 /\
  forall i, (1 <= i <= 3)%nat ->
    nth_error (backoffs (trace run)) (i - 1)
    = Some (Z.min 10000 (1000 * 2 ^ (Z.of_nat i - 1))).
Proof.
  apply (executeRequest_retries_then_succeeds VolumeWindow.t
           "https://api.wormhole.com" "test-api-key" 5000 10%Q 3 Scenarios.flaky 0 GetVolume
           (parseVolume W24h)
           (mkResponse 200 "OK" None (Some Scenarios.volumePayload) (mkTimestamp 0))).
  - intros i Hi. destruct i as [|[|[|i]]]; [reflexivity|reflexivity|reflexivity|lia].
  - reflexivity.
  - reflexivity.
  - reflexivity.
Defined.

(** C1 as stated fails: three answers 500 whose status text reads
    "Authentication failed", then a good answer; the first failure is
    rethrown after one attempt. *)
Lemma server_error_reading_authentication_failed_is_terminal :
  (forall i, (i < 3)%nat ->
     exists r, fetch Scenarios.gateway i GetVolume = Responded r /\ (500 <= status r)%N) /\
  (exists r v, fetch Scenarios.gateway 3 GetVolume = Responded r /\ ok r = true /\
               parseVolume W24h r = Returned v) /\
  attempts (executeRequest Scenarios.service Scenarios.gateway 0 GetVolume (parseVolume W24h))
  = 1%nat /\
  outcome (executeRequest Scenarios.service Scenarios.gateway 0 GetVolume (parseVolume W24h))
  = Threw (ThrownError (mkError Error_ "Server error: 500 Authentication failed")).
Proof.
  split; [|split; [|split]].
  - intros i Hi. destruct i as [|[|[|i]]]; try lia; eexists; (split; [reflexivity|cbn; lia]).
  - eexists. eexists. repeat split; reflexivity.
  - reflexivity.
  - reflexivity.
Qed.


End RetryClaims.

(* ------------------------------------------------------------------ *)
(** * Rate normalisation *)

Module RateFacts.
Import Js Upstream WormholeService Statements JsFacts.

Lemma multiplier_pos decimals : 0 < multiplier decimals.
Proof. unfold multiplier. apply Z.pow_pos_nonneg; lia. Qed.

Lemma binary_round_aux_sign mx ex lx :
  isNegative (binary_round_aux prec emax false mx ex lx) = false.
Proof.
  unfold binary_round_aux.
  destruct (shr_fexp prec emax mx ex lx) as [mrs' e'].
  destruct (shr_fexp prec emax (round_nearest_even (shr_m mrs') (loc_of_shr_record mrs')) e' loc_Exact)
    as [mrs'' e''].
  destruct (shr_m mrs''); [reflexivity| |reflexivity].
  destruct (e'' <=? emax - prec); reflexivity.
Qed.

(** Dividing two numbers that are not negative gives a number that is not
    negative ([NaN] included: it is no number at all). *)
Lemma fdiv_not_negative x y :
  isNegative x = false -> isNegative y = false -> isNegative (fdiv x y) = false.
Proof.
  intros Hx Hy. destruct x as [sx|sx| |sx mx ex], y as [sy|sy| |sy my ey];
    cbn [isNegative] in Hx, Hy; subst; try reflexivity.
  unfold fdiv, SFdiv.
  destruct (SFdiv_core_binary prec emax (Z.pos mx) ex (Z.pos my) ey) as [[mz ez] lz].
  apply binary_round_aux_sign.
Qed.

Lemma Number_of_bigint_not_negative z : 0 <= z -> isNegative (Number_of_bigint z) = false.
Proof.
  intros Hz. destruct (Z.eq_dec z 0) as [->|Hne]; [reflexivity|].
  destruct (Number_of_bigint_pos z ltac:(lia)) as [(m & e & ->)| ->]; reflexivity.
Qed.

Lemma fdiv_zero_by_positive z :
  0 < z -> fdiv (Number_of_bigint 0) (Number_of_bigint z) = S754_zero false.
Proof.
  intros Hz. destruct (Number_of_bigint_pos z Hz) as [(m & e & ->)| ->]; reflexivity.
Qed.

Lemma prop_object fields name : prop (JObj fields) name = Returned (lookup fields name).
Proof. reflexivity. Qed.

(** [normalizeRate] on an object, the conversions of the two amounts done. *)
Lemma normalizeRate_object source destination amountIn fields now amountInNum amountOutNum :
  StringToBigInt amountIn = Some amountInNum ->
  truthy (amountOutRaw fields) = true ->
  BigInt_of_String_of_value (amountOutRaw fields) = Returned amountOutNum ->
  normalizeRate source destination amountIn (JObj fields) now =
  let amountInNormalized :=
    fdiv (Number_of_bigint amountInNum) (Number_of_bigint (multiplier (decimals source))) in
  let amountOutNormalized :=
    fdiv (Number_of_bigint amountOutNum) (Number_of_bigint (multiplier (decimals destination))) in
  if feqb amountInNormalized (S754_zero false)
  then throwError Error_ "AmountIn cannot be zero"
  else
    let feeAmount :=
      or_else (or_else (or_else (lookup fields "fee") (lookup fields "totalFees"))
                       (lookup fields "feeUsd"))
              (JNum (S754_zero false)) in
    Returned (Rate.mk source destination
                (BigInt_toString amountInNum) (BigInt_toString amountOutNum)
                (fdiv amountOutNormalized amountInNormalized)
                (match isUsableNumber feeAmount with
                 | Some fee => fee
                 | None => estimateFeesUsd amountInNum (decimals source)
                 end)
                now).
Proof.
  intros Hin Htruthy Hout. unfold normalizeRate, BigInt_of_string.
  rewrite Hin. cbn [bind]. rewrite !prop_object. cbn [bind].
  fold (amountOutRaw fields). rewrite Htruthy. cbn [negb]. rewrite Hout. cbn [bind].
  cbv zeta.
  destruct (feqb _ (S754_zero false)); [reflexivity|].
  rewrite ?prop_object. cbn [bind]. reflexivity.
Qed.

Lemma exactRate_positive amountIn amountOut sourceDecimals destDecimals :
  0 < amountIn -> 0 < amountOut ->
  (0 < exactRate amountIn amountOut sourceDecimals destDecimals)%Q.
Proof.
  intros Hin Hout. unfold exactRate.
  pose proof (multiplier_pos sourceDecimals) as Hs.
  pose proof (multiplier_pos destDecimals) as Hd.
  assert (P : forall z, 0 < z -> (0 < inject_Z z)%Q).
  { intros z Hz. unfold Qlt, inject_Z. simpl. lia. }
  assert (D : forall a b, (0 < a)%Q -> (0 < b)%Q -> (0 < a / b)%Q).
  { intros a b Ha Hb. unfold Qdiv. apply Qmult_lt_0_compat; [exact Ha|].
    apply Qinv_lt_0_compat. exact Hb. }
  apply D; apply D; apply P; assumption.
Qed.


Lemma getRatesFrom_cons svc w k route notional rest :
  getRatesFrom svc w k ((route, notional) :: rest) =
  let run := executeRequest svc w k (PostQuote route notional)
               (fun response =>
                  data <- readJson response ;;
                  normalizeRate (source route) (destination route) notional data
                    (arrival response)) in
  let k' := (k + attempts run)%nat in
  rate <- match outcome run with
          | Returned rate => Returned rate
          | Threw _ => estimateRate (source route) (destination route) notional (clock w k')
          end ;;
  rates <- getRatesFrom svc w k' rest ;;
  Returned (rate :: rates).
Proof. reflexivity. Qed.

End RateFacts.

(* ------------------------------------------------------------------ *)
(** * Rounding: what a division and a product of numbers return *)

Module FloatFacts.
Import Js Upstream WormholeService Statements JsFacts RateFacts.








(** The powers of ten up to 10^22 are numbers. *)
Lemma Number_of_power_of_ten (decimals : nat) :
  (decimals <= 22)%nat ->
  exists m e,
    Number_of_bigint (10 ^ Z.of_nat decimals) = S754_finite false m e /\
    4503599627370496 <= Zpos m < 9007199254740992 /\
    -52 <= e <= 21 /\ Zpos m * 2 ^ (e + 52) = 10 ^ Z.of_nat decimals * 2 ^ 52.
Proof.
  intros H.
  do 23 (destruct decimals as [|decimals];
         [eexists; eexists; split; [vm_compute; reflexivity|];
          split; [split; [discriminate|reflexivity]|];
          split; [split; discriminate|vm_compute; reflexivity]|]).
  lia.
Qed.




Local Open Scope Q_scope.



















End FloatFacts.

Module RateClaims.
Import Js Upstream WormholeService Statements JsFacts RateFacts FloatFacts.





(** C6.  With an input amount that reads as 0 and any output amount the
    quote carries, [normalizeRate] throws the error "AmountIn cannot be
    zero", whatever the decimals; no rate, so no NaN or infinity, is returned. *)
Theorem normalizeRate_rejects_zero_amountIn
  (source destination : Asset) (amountIn : string) (fields : list (string * JsVal))
  (amountOut : Z) (now : Timestamp) :
  StringToBigInt amountIn = Some 0 ->
  truthy (amountOutRaw fields) = true ->
  BigInt_of_String_of_value (amountOutRaw fields) = Returned amountOut ->
  normalizeRate source destination amountIn (JObj fields) now
  = throwError Error_ "AmountIn cannot be zero".
Proof.
  intros Hin Htruthy Hout.
  rewrite (normalizeRate_object _ _ _ _ _ _ _ Hin Htruthy Hout). cbv zeta.
  rewrite fdiv_zero_by_positive by apply multiplier_pos. reflexivity.
Qed.

Lemma normalizeRate_rejects_zero_amountIn_witness :
  normalizeRate Scenarios.usdcEthereum Scenarios.usdcPolygon "0" Scenarios.quote995
    (mkTimestamp 0)
  = throwError Error_ "AmountIn cannot be zero".
Proof.
  apply (normalizeRate_rejects_zero_amountIn Scenarios.usdcEthereum Scenarios.usdcPolygon
           "0" [("amountOut", JStr "995000")] 995000 (mkTimestamp 0));
    reflexivity.
Defined.

(** C7, as amended.  For USDC (chain 1, 6 decimals) to USDC (chain 137, 6
    decimals), [amountIn] "1000000" and a quote of [amountOut] "995000":
    [normalizeRate] gives the effective rate 0.995, and the fee estimate
    of the service for that amount, 5 basis points of one token, is 0.0005. *)
Theorem usdc_quote_rate_and_fee_estimate :
  (exists rate,
     normalizeRate Scenarios.usdcEthereum Scenarios.usdcPolygon "1000000" Scenarios.quote995
       (mkTimestamp 0) = Returned rate /\
     Rate.amountIn rate = "1000000" /\
     Rate.amountOut rate = "995000" /\
     Rate.effectiveRate rate = literal 995 1000) /\
  estimateFeesUsd 1000000 6 = literal 5 10000.
Proof.
  split; [|vm_compute; reflexivity].
  eexists. split; [vm_compute; reflexivity|]. repeat split.
Qed.

(** C7 as stated fails: the quote has no fee field, and the fee of the
    rate returned is 0; neither it nor the 5 basis point estimate is
    within 0.0025 of 0.005. *)
Lemma usdc_quote_without_fee_reports_zero_fee :
  exists rate,
    normalizeRate Scenarios.usdcEthereum Scenarios.usdcPolygon "1000000" Scenarios.quote995
      (mkTimestamp 0) = Returned rate /\
    Rate.effectiveRate rate = literal 995 1000 /\
    Rate.totalFeesUsd rate = S754_zero false /\
    approximately (literal 5 1000) (literal 25 10000) (Rate.totalFeesUsd rate) = false /\
    approximately (literal 5 1000) (literal 25 10000) (estimateFeesUsd 1000000 6) = false.
Proof.
  eexists. split; [vm_compute; reflexivity|]. repeat split.
Qed.

End RateClaims.

Module HealthClaims.
Import Js Upstream WormholeService Statements.

(** C9 on the retrying service: with the upstream down, the effect [ping]
    returns fails; the value built by its [catch] sits on the failure
    channel, so running the effect rejects. *)
Theorem ping_fails_when_the_upstream_is_down :
  ping Scenarios.service Scenarios.outage
  = Effect.Failure (PingResult.mk "ok" (mkTimestamp 4)).
Proof. reflexivity. Qed.

(** [ping] succeeds exactly when the health request does. *)
Lemma ping_follows_executeRequest svc w :
  match outcome (executeRequest svc w 0 GetHealth
                   (fun _ => Returned (JObj [("status", JStr "ok")]))) with
  | Returned _ => exists now, ping svc w = Effect.Success (PingResult.mk "ok" now)
  | Threw _ => exists now, ping svc w = Effect.Failure (PingResult.mk "ok" now)
  end.
Proof.
  unfold ping, Effect.tryPromise, okResult.
  destruct (outcome _); cbn [bind]; eauto.
Qed.

(** The probe of the operations-based service reports "ok" on the success
    channel whatever the upstream does. *)
Lemma operations_ping_always_succeeds svc w :
  WormholescanService.ping svc w = Effect.Success (PingResult.mk "ok" (clock w 1)).
Proof.
  unfold WormholescanService.ping, Effect.tryPromise, Effect.catchAll, Effect.succeed, Effect.map.
  destruct (WormholescanService.pingAttempt w) as [status|] eqn:E; [|reflexivity].
  unfold WormholescanService.pingAttempt in E.
  destruct (fetch w 0 (GetOperations 1)) as [|r]; [discriminate|].
  destruct (negb (ok r)); [discriminate|]. injection E as <-. reflexivity.
Qed.

End HealthClaims.

(* ------------------------------------------------------------------ *)
(** * The snapshot is returned whatever the upstream answers *)

Module SnapshotFacts.
Import Js Upstream WormholeService Statements JsFacts RetryFacts VolumeFacts RateFacts
  FloatFacts.








End SnapshotFacts.

Module SnapshotClaims.
Import Js Upstream WormholeService Statements JsFacts RetryFacts VolumeFacts RateFacts
  FloatFacts SnapshotFacts.

(** C10.  When [includeWindows] is omitted, a snapshot that is returned
    has exactly one volume entry, and its window is "24h". *)
Theorem snapshot_without_windows_has_the_24h_volume
  (svc : WormholeService.t) (v : Views) (mapAssets : JsVal -> Completion (list Asset))
  (routes : list Route) (notionals : list string) (snapshot : ProviderSnapshot.t) :
  getSnapshot svc v mapAssets (mkParams routes notionals None) = Effect.Success snapshot ->
  exists entry,
    ProviderSnapshot.volumes snapshot = [entry] /\ VolumeWindow.window entry = W24h.
Proof.
  intros H. rewrite (getSnapshot_volumes _ _ _ _ _ H). cbn [includeWindows].
  pose proof (getVolumes_windows svc (volumesView v) [W24h] 0) as Hw.
  unfold getVolumes. rewrite getVolumesFrom_cons in *. cbv zeta in *. cbn [fst] in *.
  cbn [getVolumesFrom fst List.map] in *.
  eexists. split; [reflexivity|]. injection Hw as Hw. exact Hw.
Qed.

Lemma snapshot_without_windows_has_the_24h_volume_witness :
  exists entry,
    ProviderSnapshot.volumes Scenarios.unauthorizedSnapshot = [entry] /\
    VolumeWindow.window entry = W24h.
Proof.
  apply (snapshot_without_windows_has_the_24h_volume Scenarios.service
           (Scenarios.everywhere Scenarios.unauthorized) Scenarios.noAssets
           [Scenarios.usdcRoute] ["1000000"] Scenarios.unauthorizedSnapshot).
  vm_compute. reflexivity.
Defined.



End SnapshotClaims.

(* ------------------------------------------------------------------ *)
(** * The rate limiter *)

Module LimiterClaims.
Import Js RateLimiterMs.










Local Open Scope list_scope.




End LimiterClaims.

(* ------------------------------------------------------------------ *)
(** * The liquidity probe *)

Module ProbeFacts.
Import Js Upstream WormholeService Statements JsFacts RetryFacts RateFacts.

Lemma BigInt_toString_nonempty z : BigInt_toString z <> "".
Proof.
  unfold BigInt_toString. destruct (z <? 0); [discriminate|].
  destruct (digitsOf_nonempty (Z.to_nat (Z.log2 z)) z "") as (c & rest & ->). discriminate.
Qed.

Lemma truthy_toString z : truthy (JStr (BigInt_toString z)) = true.
Proof.
  cbn [truthy]. pose proof (BigInt_toString_nonempty z).
  destruct (BigInt_toString z); [congruence|reflexivity].
Qed.

(** The slippage measured on a quote of [amountOut], for a request of
    [amount] whole tokens: the expected output is [amount] tokens of the
    destination. *)
Lemma calculateSlippage_quote route amount amountOut :
  calculateSlippage route (inSmallestUnits route amount) (quoteOf amountOut)
  = Returned
      (fabs (fdiv (fmul (Number_of_bigint (amount * multiplier (decimals (destination route))
                                           - amountOut))
                        (Number_of_bigint 10000))
                  (Number_of_bigint (amount * multiplier (decimals (destination route)))))).
Proof.
  unfold calculateSlippage, inSmallestUnits, quoteOf.
  rewrite BigInt_of_toString. cbn [bind]. rewrite !prop_object. cbn [bind].
  cbn [lookup String.eqb Ascii.eqb Bool.eqb].
  unfold or_else at 2. rewrite truthy_toString.
  unfold or_else. rewrite truthy_toString.
  cbn [BigInt_of_value]. rewrite BigInt_of_toString. cbn [bind].
  replace (amount * multiplier (decimals (source route)) * multiplier (decimals (destination route)))
    with (amount * multiplier (decimals (destination route)) * multiplier (decimals (source route)))
    by ring.
  rewrite Z.quot_mul by (pose proof (multiplier_pos (decimals (source route))); lia).
  reflexivity.
Qed.

Lemma searchLoop_S svc w route slippageBps n k st :
  searchLoop svc w route slippageBps (S n) k st =
  let run := probe svc w k route (testAmountOf st) in
  let rest := searchLoop svc w route slippageBps n (k + attempts run)
                (searchStep slippageBps st (outcome run)) in
  mkSearchRun (final rest) (testAmountOf st :: probed rest)%list
    (attempts run + fetches rest).
Proof. reflexivity. Qed.

(** The loop, read from its last iteration. *)
Lemma searchLoop_last svc w route slippageBps n : forall k st,
  searchLoop svc w route slippageBps (S n) k st =
  let before := searchLoop svc w route slippageBps n k st in
  let run := probe svc w (k + fetches before) route (testAmountOf (final before)) in
  mkSearchRun (searchStep slippageBps (final before) (outcome run))
    (probed before ++ [testAmountOf (final before)])%list
    (fetches before + attempts run).
Proof.
  induction n as [|n IH]; intros k st.
  - rewrite searchLoop_S. cbn [searchLoop]. cbv zeta. cbn [final probed fetches app].
    rewrite !Nat.add_0_r. reflexivity.
  - rewrite searchLoop_S. cbv zeta. rewrite IH. cbv zeta.
    rewrite (searchLoop_S svc w route slippageBps n k st). cbv zeta.
    cbn [final probed fetches app]. rewrite !Nat.add_assoc. reflexivity.
Qed.

Lemma searchLoop_length svc w route slippageBps n : forall k st,
  List.length (probed (searchLoop svc w route slippageBps n k st)) = n.
Proof.
  induction n as [|n IH]; intros k st; [reflexivity|].
  rewrite searchLoop_S. cbv zeta. cbn [probed List.length]. rewrite IH. reflexivity.
Qed.

(** ** A deterministic upstream *)

Lemma attemptLoop_deterministic (T : Type) cfg w req (parseFn : Response -> Completion T) :
  deterministic w ->
  forall remaining k k' attempt lastError,
    attemptLoop cfg w k req parseFn remaining attempt lastError
    = attemptLoop cfg w k' req parseFn remaining attempt lastError.
Proof.
  intros Hdet. induction remaining as [|remaining IH]; intros k k' attempt lastError;
    [reflexivity|].
  rewrite !attemptLoop_S. rewrite (Hdet (k + attempt)%nat (k' + attempt)%nat req).
  destruct (attemptBody cfg attempt (fetch w (k' + attempt)%nat req) parseFn); [reflexivity|].
  rewrite (IH k k'). reflexivity.
Qed.

Lemma probe_deterministic svc w route amount k :
  deterministic w -> outcome (probe svc w k route amount) = realizedSlippage svc w route amount.
Proof.
  intros Hdet. unfold realizedSlippage, probe, executeRequest. cbn [outcome].
  rewrite (attemptLoop_deterministic _ _ _ _ _ Hdet _ k 0%nat). reflexivity.
Qed.

Lemma searchStep_bisect svc w route slippageBps st :
  searchStep slippageBps st (realizedSlippage svc w route (testAmountOf st))
  = bisectStep (withinThreshold svc w route slippageBps) st.
Proof.
  unfold searchStep, bisectStep, withinThreshold.
  destruct (realizedSlippage svc w route (testAmountOf st)); reflexivity.
Qed.

Lemma searchLoop_bisect svc w route slippageBps :
  deterministic w ->
  forall n k st,
    final (searchLoop svc w route slippageBps n k st)
    = bisect (withinThreshold svc w route slippageBps) n st.
Proof.
  intros Hdet. induction n as [|n IH]; intros k st; [reflexivity|].
  rewrite searchLoop_S. cbv zeta. cbn [final bisect]. rewrite IH.
  rewrite probe_deterministic by exact Hdet. rewrite searchStep_bisect. reflexivity.
Qed.

(** ** Two searches, one test implying the other *)

Lemma related_step (P Q : Z -> bool) done narrow wide :
  (forall x, P x = true -> Q x = true) ->
  (done < 20)%nat ->
  related done narrow wide ->
  related (S done) (bisectStep P narrow) (bisectStep Q wide).
Proof.
  intros HPQ Hdone [(-> & Hwidth & Hbest)|(m & H1 & H2 & H3 & H4 & H5 & H6)].
  - destruct wide as [lo hi best]. cbn [minAmount maxAmount bestAmount] in *.
    assert (Hp : 1 <= 2 ^ Z.of_nat done <= 524288).
    { split.
      - apply (Z.pow_le_mono_r 2 0 (Z.of_nat done)); lia.
      - change 524288 with (2 ^ 19). apply Z.pow_le_mono_r; lia. }
    set (p := 2 ^ Z.of_nat done) in *.
    assert (Hw : 20 <= hi - lo + 3) by nia.
    assert (Hp2 : 2 ^ Z.of_nat (S done) = 2 * p).
    { rewrite Nat2Z.inj_succ, Z.pow_succ_r by lia. reflexivity. }
    unfold bisectStep, testAmountOf. cbn [minAmount maxAmount bestAmount].
    set (mid := (lo + hi) / 2).
    assert (Hmid : 2 * mid <= lo + hi < 2 * mid + 2)
      by (unfold mid; pose proof (Z.div_mod (lo + hi) 2 ltac:(lia));
          pose proof (Z.mod_pos_bound (lo + hi) 2 ltac:(lia)); lia).
    destruct (P mid) eqn:EP, (Q mid) eqn:EQ.
    + left. cbn [minAmount maxAmount bestAmount]. rewrite Hp2. repeat split; nia.
    + rewrite (HPQ mid EP) in EQ. discriminate.
    + right. exists mid. cbn [minAmount maxAmount bestAmount]. lia.
    + left. cbn [minAmount maxAmount bestAmount]. rewrite Hp2. repeat split; nia.
  - right. exists m. destruct narrow as [lo hi best], wide as [lo' hi' best'].
    unfold bisectStep, testAmountOf. cbn [minAmount maxAmount bestAmount] in *.
    set (mid := (lo + hi) / 2). set (mid' := (lo' + hi') / 2).
    assert (Hmid : 2 * mid <= lo + hi < 2 * mid + 2)
      by (unfold mid; pose proof (Z.div_mod (lo + hi) 2 ltac:(lia));
          pose proof (Z.mod_pos_bound (lo + hi) 2 ltac:(lia)); lia).
    assert (Hmid' : 2 * mid' <= lo' + hi' < 2 * mid' + 2)
      by (unfold mid'; pose proof (Z.div_mod (lo' + hi') 2 ltac:(lia));
          pose proof (Z.mod_pos_bound (lo' + hi') 2 ltac:(lia)); lia).
    destruct (P mid), (Q mid'); cbn [minAmount maxAmount bestAmount]; lia.
Qed.

Lemma bisect_step pass n st : bisect pass (S n) st = bisect pass n (bisectStep pass st).
Proof. reflexivity. Qed.

Lemma related_bisect (P Q : Z -> bool) :
  (forall x, P x = true -> Q x = true) ->
  forall n done narrow wide,
    (done + n <= 20)%nat ->
    related done narrow wide ->
    bestAmount (bisect P n narrow) <= bestAmount (bisect Q n wide).
Proof.
  intros HPQ. induction n as [|n IH]; intros done narrow wide Hn Hrel.
  - cbn [bisect]. destruct Hrel as [(-> & _)|(m & ? & ? & ? & ? & ? & ?)]; lia.
  - rewrite !bisect_step. apply (IH (S done)); [lia|].
    apply related_step; [exact HPQ|lia|exact Hrel].
Qed.

Lemma fleb_50_100 x :
  fleb x (Number_of_bigint 50) = true -> fleb x (Number_of_bigint 100) = true.
Proof.
  change (Number_of_bigint 50) with (S754_finite false 7036874417766400 (-47)).
  change (Number_of_bigint 100) with (S754_finite false 7036874417766400 (-46)).
  unfold fleb, SFleb, SFcompare.
  destruct x as [s|s| |s m e]; try (destruct s); try reflexivity; try discriminate.
  destruct (Z.compare_spec e (-47)) as [->|Hlt|Hgt].
  - intros _. reflexivity.
  - intros _. replace (e ?= -46) with Lt by (symmetry; apply Z.compare_lt_iff; lia).
    reflexivity.
  - discriminate.
Qed.

End ProbeFacts.

Module ProbeClaims.
Import Js Upstream WormholeService Statements JsFacts RetryFacts RateFacts ProbeFacts.

(** C3.  [findMaxLiquidity] runs exactly 20 iterations from the bounds
    [1000, 10000000] with 1000 as the first best amount.  Each iteration
    takes the midpoint, issues one [executeRequest] for the midpoint times
    [10^(source decimals)], measures the slippage with [calculateSlippage]
    (for a quote of [amountOut], the magnitude of [(expected - amountOut) *
    10000 / expected] against the expected output of one for one after the
    decimals), and then either records the midpoint as best and raises the
    floor to [midpoint + 1] (slippage within the threshold) or lowers the
    ceiling to [midpoint - 1] (slippage above it, or quote failed).  The
    result is the best amount times [10^(source decimals)]. *)
Theorem findMaxLiquidity_is_a_twenty_step_binary_search
  (svc : WormholeService.t) (w : World) (route : Route) (slippageBps : number) :
  let after := searchAfter svc w route slippageBps in
  final (after 0%nat) = mkSearch 1000 10000000 1000 /\
  (forall n,
     let st := final (after n) in
     let mid := (minAmount st + maxAmount st) / 2 in
     let measured := probe svc w (fetches (after n)) route mid in
     final (after (S n))
     = match outcome measured with
       | Returned actual =>
           if fleb actual slippageBps
           then mkSearch (mid + 1) (maxAmount st) mid
           else mkSearch (minAmount st) (mid - 1) (bestAmount st)
       | Threw _ => mkSearch (minAmount st) (mid - 1) (bestAmount st)
       end /\
     probed (after (S n)) = (probed (after n) ++ [mid])%list /\
     fetches (after (S n)) = (fetches (after n) + attempts measured)%nat) /\
  (forall k mid,
     let amount := BigInt_toString (mid * 10 ^ Z.of_nat (decimals (source route))) in
     let run := executeRequest svc w k (PostQuote route amount) readJson in
     probe svc w k route mid
     = mkRun (quote <- outcome run ;; calculateSlippage route amount quote)
         (attempts run) (trace run)) /\
  (forall mid amountOut,
     let expectedOut := mid * 10 ^ Z.of_nat (decimals (destination route)) in
     calculateSlippage route
       (BigInt_toString (mid * 10 ^ Z.of_nat (decimals (source route)))) (quoteOf amountOut)
     = Returned (fabs (fdiv (fmul (Number_of_bigint (expectedOut - amountOut))
                                  (Number_of_bigint 10000))
                            (Number_of_bigint expectedOut)))) /\
  List.length (probed (after 20%nat)) = 20%nat /\
  findMaxLiquidity svc w route slippageBps
  = Returned (LiquidityThreshold.mk
                (BigInt_toString (bestAmount (final (after 20%nat))
                                  * 10 ^ Z.of_nat (decimals (source route))))
                slippageBps).
Proof.
  intros after. split; [|split; [|split; [|split; [|split]]]].
  - unfold after, searchAfter. cbn [searchLoop final]. reflexivity.
  - intros n st mid measured. unfold measured, mid, st, after, searchAfter.
    rewrite searchLoop_last. cbv zeta. cbn [final probed fetches].
    set (before := searchLoop svc w route slippageBps n 0 initialSearch).
    split; [|split; reflexivity].
    unfold searchStep, testAmountOf. reflexivity.
  - intros k mid amount run. unfold run, amount, probe, inSmallestUnits, multiplier.
    reflexivity.
  - intros mid amountOut expectedOut. unfold expectedOut.
    apply (calculateSlippage_quote route mid amountOut).
  - unfold after, searchAfter. apply searchLoop_length.
  - unfold findMaxLiquidity, inSmallestUnits, multiplier, search, after, searchAfter.
    reflexivity.
Qed.

(** The par market quotes every amount with no slippage at all. *)
Lemma parMarket_realizedSlippage amount :
  0 < amount ->
  realizedSlippage Scenarios.service Scenarios.parMarket Scenarios.usdcRoute amount
  = Returned (S754_zero false).
Proof.
  intros Hpos. unfold realizedSlippage, probe. cbn [outcome].
  unfold executeRequest. rewrite attemptLoop_S.
  cbn [fetch Scenarios.parMarket Scenarios.respond attemptBody ok status negb
       readJson json outcome bind N.leb N.compare Pos.compare Pos.compare_cont andb].
  change (JObj [("amountOut", JStr (inSmallestUnits Scenarios.usdcRoute amount))])
    with (quoteOf (amount * multiplier (decimals (source Scenarios.usdcRoute)))).
  rewrite calculateSlippage_quote.
  replace (amount * multiplier (decimals (destination Scenarios.usdcRoute))
           - amount * multiplier (decimals (source Scenarios.usdcRoute))) with 0
    by (cbn [Scenarios.usdcRoute source destination decimals Scenarios.usdcEthereum
             Scenarios.usdcPolygon]; lia).
  change (fmul (Number_of_bigint 0) (Number_of_bigint 10000)) with (Number_of_bigint 0).
  rewrite fdiv_zero_by_positive
    by (pose proof (multiplier_pos (decimals (destination Scenarios.usdcRoute))); nia).
  reflexivity.
Qed.

(** C4.  On an upstream that answers a request the same way whenever it is
    asked and whose measured slippage does not decrease with the amount,
    the amount found for 100 basis points is at least the amount found for
    50 basis points on the same route. *)
Theorem wider_threshold_finds_no_less
  (svc : WormholeService.t) (w : World) (route : Route) :
  deterministic w ->
  monotonicMarket svc w route ->
  exists best50 best100,
    findMaxLiquidity svc w route (Number_of_bigint 50)
    = Returned (LiquidityThreshold.mk
                  (BigInt_toString (best50 * 10 ^ Z.of_nat (decimals (source route))))
                  (Number_of_bigint 50)) /\
    findMaxLiquidity svc w route (Number_of_bigint 100)
    = Returned (LiquidityThreshold.mk
                  (BigInt_toString (best100 * 10 ^ Z.of_nat (decimals (source route))))
                  (Number_of_bigint 100)) /\
    best50 * 10 ^ Z.of_nat (decimals (source route))
    <= best100 * 10 ^ Z.of_nat (decimals (source route)).
Proof.
  intros Hdet _.
  exists (bestAmount (final (search svc w route (Number_of_bigint 50)))),
         (bestAmount (final (search svc w route (Number_of_bigint 100)))).
  split; [unfold findMaxLiquidity, inSmallestUnits, multiplier; reflexivity|].
  split; [unfold findMaxLiquidity, inSmallestUnits, multiplier; reflexivity|].
  apply Z.mul_le_mono_nonneg_r; [apply Z.pow_nonneg; lia|].
  unfold search. rewrite !searchLoop_bisect by exact Hdet.
  apply (related_bisect _ _) with (done := 0%nat); [|lia|].
  - intros x. unfold withinThreshold.
    destruct (realizedSlippage svc w route x); [apply fleb_50_100|discriminate].
  - left. unfold initialSearch. cbn [minAmount maxAmount bestAmount Z.of_nat].
    rewrite Z.pow_0_r. repeat split; lia.
Qed.

Lemma wider_threshold_finds_no_less_witness :
  exists best50 best100,
    findMaxLiquidity Scenarios.service Scenarios.parMarket Scenarios.usdcRoute
      (Number_of_bigint 50)
    = Returned (LiquidityThreshold.mk (BigInt_toString (best50 * 10 ^ Z.of_nat 6))
                  (Number_of_bigint 50)) /\
    findMaxLiquidity Scenarios.service Scenarios.parMarket Scenarios.usdcRoute
      (Number_of_bigint 100)
    = Returned (LiquidityThreshold.mk (BigInt_toString (best100 * 10 ^ Z.of_nat 6))
                  (Number_of_bigint 100)) /\
    best50 * 10 ^ Z.of_nat 6 <= best100 * 10 ^ Z.of_nat 6.
Proof.
  apply (wider_threshold_finds_no_less Scenarios.service Scenarios.parMarket
           Scenarios.usdcRoute).
  - intros k k' req. reflexivity.
  - intros a1 a2 Ha. exists (S754_zero false), (S754_zero false).
    rewrite !parMarket_realizedSlippage by lia. repeat split.
Defined.

End ProbeClaims.

(* ------------------------------------------------------------------ *)
(** * Further properties of the retry loop *)

Module RetryProperties.
Import Js Upstream WormholeService Statements Properties JsFacts RetryFacts.

Lemma BigInt_toString_no_A z :
  stringForall (fun c => negb (Ascii.eqb c "A")) (BigInt_toString z) = true.
Proof.
  unfold BigInt_toString. destruct (z <? 0) eqn:E.
  - cbn [stringForall]. apply andb_true_intro. split; [reflexivity|].
    apply stringForall_impl with (1 := isDigit_not_A).
    apply digitsOf_digits; [apply Z.ltb_lt in E; lia|reflexivity].
  - apply stringForall_impl with (1 := isDigit_not_A).
    apply digitsOf_digits; [apply Z.ltb_ge in E; lia|reflexivity].
Qed.

Lemma stringForall_app P s t :
  stringForall P (s ++ t) = stringForall P s && stringForall P t.
Proof.
  induction s as [|c s IH]; [reflexivity|].
  change ((String c s) ++ t) with (String c (s ++ t)). cbn [stringForall].
  rewrite IH. apply andb_assoc.
Qed.

Lemma stringForall_dropZeros P s :
  stringForall P s = true -> stringForall P (dropZeros s) = true.
Proof.
  induction s as [|c s IH]; intros H; [reflexivity|].
  cbn [dropZeros]. cbn [stringForall] in H. apply andb_prop in H as [Hc Hs].
  assert (Hk : stringForall P (String c s) = true)
    by (cbn [stringForall]; rewrite Hc, Hs; reflexivity).
  destruct c as [[] [] [] [] [] [] [] []]; try exact Hk. apply IH. exact Hs.
Qed.

Lemma exponentForm_no_A w :
  stringForall (fun c => negb (Ascii.eqb c "A")) (exponentForm w) = true.
Proof.
  unfold exponentForm.
  assert (Hd : stringForall (fun c => negb (Ascii.eqb c "A"))
                 (reverse (dropZeros (reverse (BigInt_toString w)))) = true).
  { rewrite stringForall_reverse. apply stringForall_dropZeros.
    rewrite stringForall_reverse. apply BigInt_toString_no_A. }
  destruct (reverse (dropZeros (reverse (BigInt_toString w)))) as [|d more];
    [apply BigInt_toString_no_A|].
  cbn [stringForall] in Hd. apply andb_prop in Hd as [Hc Hmore].
  destruct more as [|d2 more].
  - cbn [stringForall]. rewrite Hc. cbn [andb].
    rewrite stringForall_app, BigInt_toString_no_A. reflexivity.
  - cbn [stringForall]. rewrite Hc. cbn [andb].
    rewrite !stringForall_app, BigInt_toString_no_A. cbn [stringForall] in Hmore |- *.
    rewrite Hmore. reflexivity.
Qed.

Lemma String_of_Number_of_bigint_no_A z :
  stringForall (fun c => negb (Ascii.eqb c "A")) (String_of_Number_of_bigint z) = true.
Proof.
  unfold String_of_Number_of_bigint.
  destruct (Number_of_bigint z) as [s|s| |s m e]; try reflexivity.
  - destruct s; reflexivity.
  - destruct (integerOfNumber (S754_finite false m e)) as [v|]; [|reflexivity].
    rewrite stringForall_app. apply andb_true_intro. split; [destruct s; reflexivity|].
    destruct (_ <? _); [apply BigInt_toString_no_A|apply exponentForm_no_A].
Qed.

Lemma retryAfterText_no_A r :
  stringForall (fun c => negb (Ascii.eqb c "A")) (retryAfterText r) = true.
Proof.
  unfold retryAfterText.
  destruct (parseInt10 _) as [z|]; [|reflexivity].
  apply String_of_Number_of_bigint_no_A.
Qed.

Lemma httpErrorMessage_clean r :
  includes "Authentication failed" (httpErrorMessage r)
  = includes "Authentication failed" (statusText r) && negb (status r =? 429)%N.
Proof.
  unfold httpErrorMessage. destruct (status r =? 429)%N.
  - rewrite includes_skip by reflexivity.
    rewrite includes_skip by apply retryAfterText_no_A.
    rewrite andb_false_r. reflexivity.
  - rewrite includes_skip by reflexivity.
    rewrite includes_skip
      by (apply stringForall_impl with (1 := isDigit_not_A); apply statusString_digits).
    rewrite includes_skip by reflexivity. rewrite andb_true_r. reflexivity.
Qed.

(** What one attempt throws on a refused answer. *)
Lemma attemptBody_refused (T : Type) cfg attempt r (parseFn : Response -> Completion T) :
  refused (Responded r) = true ->
  exists msg,
    attemptBody cfg attempt (Responded r) parseFn = throwError Error_ msg /\
    includes "Authentication failed" msg = false /\
    ((attempt < maxRetries cfg)%nat \/ msg = httpErrorMessage r).
Proof.
  cbn [refused]. intros H. apply andb_prop in H as [H Htext]. apply andb_prop in H as [Hok Hauth].
  apply negb_true_iff in Hok, Hauth, Htext.
  cbn [attemptBody]. rewrite Hok. cbn [negb].
  destruct (status r =? 429)%N eqn:E429.
  - exists (httpErrorMessage r). unfold httpErrorMessage. rewrite E429.
    split; [reflexivity|]. split; [|right; reflexivity].
    pose proof (httpErrorMessage_clean r) as Hc. unfold httpErrorMessage in Hc.
    rewrite E429 in Hc. rewrite Hc. apply andb_false_r.
  - rewrite Hauth.
    destruct ((500 <=? status r)%N && (attempt <? maxRetries cfg)%nat) eqn:E5.
    + apply andb_prop in E5 as [_ E5]. apply Nat.ltb_lt in E5.
      eexists. split; [reflexivity|]. split; [|left; exact E5].
      rewrite server_error_message. exact Htext.
    + exists (httpErrorMessage r). unfold httpErrorMessage. rewrite E429.
      split; [reflexivity|]. split; [|right; reflexivity].
      pose proof (httpErrorMessage_clean r) as Hc. unfold httpErrorMessage in Hc.
      rewrite E429 in Hc. rewrite Hc, Htext. reflexivity.
Qed.

(** The loop, when no attempt succeeds and none is rethrown at once. *)
Lemma attemptLoop_exhausts (T : Type) cfg w k req (parseFn : Response -> Completion T) :
  (forall i, (i <= maxRetries cfg)%nat ->
     exists e, attemptBody cfg i (fetch w (k + i)%nat req) parseFn = Threw e /\
               rethrownAtOnce e = false) ->
  forall remaining attempt lastError,
    (remaining + attempt = S (maxRetries cfg))%nat -> (1 <= remaining)%nat ->
    exists e,
      attemptBody cfg (maxRetries cfg) (fetch w (k + maxRetries cfg)%nat req) parseFn = Threw e /\
      attemptLoop cfg w k req parseFn remaining attempt lastError
      = mkRun (Threw (ThrownError (toError e))) remaining
          (flat_map (fun i => [SlotAcquired; Fetched req; BackedOff (backoffDelay cfg i)])
             (seq attempt (remaining - 1))
           ++ [SlotAcquired; Fetched req])%list.
Proof.
  intros Hfail. induction remaining as [|remaining IH]; intros attempt lastError Hsum Hpos;
    [lia|].
  destruct (Hfail attempt ltac:(lia)) as (e & He & Hre).
  unfold rethrownAtOnce in Hre. apply orb_false_elim in Hre as [Hcfg Hterm].
  rewrite attemptLoop_S, He, Hcfg, Hterm.
  destruct remaining as [|remaining].
  - assert (attempt = maxRetries cfg) by lia. subst attempt.
    exists e. split; [exact He|]. cbn [attemptLoop outcome attempts trace].
    rewrite Nat.ltb_irrefl. reflexivity.
  - destruct (IH (S attempt) (Some (toError e)) ltac:(lia) ltac:(lia)) as (e' & He' & ->).
    exists e'. split; [exact He'|]. cbn [outcome attempts trace].
    replace (attempt <? maxRetries cfg)%nat with true by (symmetry; apply Nat.ltb_lt; lia).
    replace (S (S remaining) - 1)%nat with (S (S remaining - 1)) by lia.
    reflexivity.
Qed.

(** X1.  An answer outside 2xx other than 401 and 403 -- a 404 as well as a
    503 or a 429 -- is retried: when every attempt is answered that way,
    [executeRequest] makes all [maxRetries + 1] attempts, pauses
    [maxRetries] times, and throws the error of the last answer. *)
Theorem refused_answers_are_retried_until_exhaustion
  (T : Type) (svc : WormholeService.t) (w : World) (k : nat) (req : Request)
  (parseFn : Response -> Completion T) (last : Response) :
  (forall i, (i <= maxRetries (retryConfig svc))%nat -> refused (fetch w (k + i)%nat req) = true) ->
  fetch w (k + maxRetries (retryConfig svc))%nat req = Responded last ->
  let run := executeRequest svc w k req parseFn in
  outcome run = throwError Error_ (httpErrorMessage last) /\
  attempts run = S (maxRetries (retryConfig svc)) /\
  backoffs (trace run)
  = List.map (backoffDelay (retryConfig svc)) (seq 0 (maxRetries (retryConfig svc))).
Proof.
  intros Hall Hlast run. set (cfg := retryConfig svc) in *.
  assert (Hfail : forall i, (i <= maxRetries cfg)%nat ->
            exists e, attemptBody cfg i (fetch w (k + i)%nat req) parseFn = Threw e /\
                      rethrownAtOnce e = false).
  { intros i Hi. specialize (Hall i Hi).
    destruct (fetch w (k + i)%nat req) as [t|r] eqn:E; [discriminate|].
    destruct (attemptBody_refused T cfg i r parseFn Hall) as (msg & Hb & Hclean & _).
    eexists. split; [exact Hb|].
    unfold rethrownAtOnce, terminal. cbn. exact Hclean. }
  destruct (attemptLoop_exhausts T cfg w k req parseFn Hfail (S (maxRetries cfg)) 0 None
              ltac:(lia) ltac:(lia)) as (e & He & Hrun).
  unfold run, executeRequest. fold cfg. rewrite Hrun. cbn [outcome attempts trace].
  rewrite Hlast in He.
  assert (Hr : refused (Responded last) = true) by (rewrite <- Hlast; apply Hall; lia).
  destruct (attemptBody_refused T cfg (maxRetries cfg) last parseFn Hr)
    as (msg & Hb & _ & [Hlt| ->]); [lia|].
  rewrite Hb in He. injection He as <-.
  split; [reflexivity|]. split; [reflexivity|].
  replace (S (maxRetries cfg) - 1)%nat with (maxRetries cfg) by lia.
  apply (backoffs_retriedTrace cfg req (maxRetries cfg) 0%nat).
Qed.

Lemma refused_answers_are_retried_until_exhaustion_witness :
  let run := executeRequest Scenarios.service notFound 0 GetAssets
               (fun response => readJson response) in
  outcome run = throwError Error_ "HTTP 404: Not Found" /\
  attempts run = 4%nat /\
  backoffs (trace run) = [1000; 2000; 4000].
Proof.
  apply (refused_answers_are_retried_until_exhaustion JsVal Scenarios.service notFound 0
           GetAssets (fun response => readJson response)
           (mkResponse 404 "Not Found" None None (mkTimestamp 0))).
  - intros i _. reflexivity.
  - reflexivity.
Defined.

(** X2.  A rejection the policy treats as terminal -- a configuration error,
    a [TypeError] whose message mentions "fetch" (what [fetch] throws when
    the network is unreachable), a message mentioning "Authentication
    failed" -- ends the run at the attempt it occurs: one attempt, no
    pause, the error rethrown. *)
Theorem terminal_rejection_is_not_retried
  (T : Type) (svc : WormholeService.t) (w : World) (k : nat) (req : Request)
  (parseFn : Response -> Completion T) (t : Thrown) :
  fetch w k req = Rejected t ->
  rethrownAtOnce t = true ->
  executeRequest svc w k req parseFn
  = mkRun (Threw (rethrown t)) 1 [SlotAcquired; Fetched req].
Proof.
  intros Hf Ht. unfold executeRequest. rewrite attemptLoop_S, Nat.add_0_r, Hf.
  cbn [attemptBody]. unfold rethrown, rethrownAtOnce in *.
  destruct (instanceofPluginConfigurationError t); [reflexivity|].
  cbn [orb] in Ht. rewrite Ht. reflexivity.
Qed.

Lemma terminal_rejection_is_not_retried_witness :
  executeRequest Scenarios.service unreachable 0 GetVolume (parseVolume W24h)
  = mkRun (throwError TypeError_ "fetch failed") 1 [SlotAcquired; Fetched GetVolume].
Proof.
  apply (terminal_rejection_is_not_retried VolumeWindow.t Scenarios.service unreachable 0
           GetVolume (parseVolume W24h) (ThrownError (mkError TypeError_ "fetch failed")));
    reflexivity.
Defined.

Lemma backoffs_pause req d tr :
  backoffs ([SlotAcquired; Fetched req] ++ [BackedOff d] ++ tr)%list = (d :: backoffs tr)%list.
Proof. reflexivity. Qed.

Lemma attemptLoop_bounds (T : Type) cfg w k req (parseFn : Response -> Completion T) :
  forall remaining attempt lastError,
    (remaining + attempt = S (maxRetries cfg))%nat -> (1 <= remaining)%nat ->
    let run := attemptLoop cfg w k req parseFn remaining attempt lastError in
    (1 <= attempts run <= remaining)%nat /\
    backoffs (trace run) = List.map (backoffDelay cfg) (seq attempt (attempts run - 1)).
Proof.
  induction remaining as [|remaining IH]; intros attempt lastError Hsum Hpos; [lia|].
  cbv zeta. rewrite attemptLoop_S.
  destruct (attemptBody cfg attempt (fetch w (k + attempt)%nat req) parseFn) as [v|e].
  - cbn [attempts trace]. split; [lia|reflexivity].
  - destruct (instanceofPluginConfigurationError e); [cbn [attempts trace]; split; [lia|reflexivity]|].
    destruct (terminal (toError e)); [cbn [attempts trace]; split; [lia|reflexivity]|].
    cbn [attempts trace outcome].
    destruct remaining as [|remaining].
    + cbn [attemptLoop attempts trace]. split; [lia|].
      replace (attempt <? maxRetries cfg)%nat with false by (symmetry; apply Nat.ltb_ge; lia).
      reflexivity.
    + destruct (IH (S attempt) (Some (toError e)) ltac:(lia) ltac:(lia)) as [Hb Hp].
      set (rest := attemptLoop cfg w k req parseFn (S remaining) (S attempt) (Some (toError e))) in *.
      split; [lia|].
      replace (attempt <? maxRetries cfg)%nat with true by (symmetry; apply Nat.ltb_lt; lia).
      rewrite backoffs_pause, Hp.
      replace (S (attempts rest) - 1)%nat with (S (attempts rest - 1)) by lia.
      reflexivity.
Qed.

(** X3.  Whatever the upstream does, [executeRequest] makes at least one and
    at most [maxRetries + 1] attempts; it pauses once between two
    consecutive attempts and nowhere else, the pause after attempt [i]
    being [min(initialDelay * multiplier^i, maxDelay)], never more than
    [maxDelay]. *)
Theorem executeRequest_attempts_and_pauses
  (T : Type) (svc : WormholeService.t) (w : World) (k : nat) (req : Request)
  (parseFn : Response -> Completion T) :
  let run := executeRequest svc w k req parseFn in
  (1 <= attempts run <= S (maxRetries (retryConfig svc)))%nat /\
  backoffs (trace run)
  = List.map (backoffDelay (retryConfig svc)) (seq 0 (attempts run - 1)) /\
  Forall (fun delay => delay <= maxDelayMs (retryConfig svc)) (backoffs (trace run)).
Proof.
  intros run.
  destruct (attemptLoop_bounds T (retryConfig svc) w k req parseFn
              (S (maxRetries (retryConfig svc))) 0 None ltac:(lia) ltac:(lia)) as [Hb Hp].
  fold (executeRequest svc w k req parseFn) in Hb, Hp. fold run in Hb, Hp.
  split; [exact Hb|]. split; [exact Hp|].
  rewrite Hp. apply Forall_forall. intros d Hd. apply in_map_iff in Hd as (i & <- & _).
  unfold backoffDelay. apply Z.le_min_r.
Qed.

(** X4.  A value [executeRequest] returns was returned by the parse callback
    on an answer with a 2xx status that one of its attempts received. *)
Theorem executeRequest_returns_a_parsed_answer
  (T : Type) (svc : WormholeService.t) (w : World) (k : nat) (req : Request)
  (parseFn : Response -> Completion T) (v : T) :
  outcome (executeRequest svc w k req parseFn) = Returned v ->
  exists i r,
    (i <= maxRetries (retryConfig svc))%nat /\
    fetch w (k + i)%nat req = Responded r /\ ok r = true /\ parseFn r = Returned v.
Proof.
  unfold executeRequest. set (cfg := retryConfig svc).
  assert (G : forall remaining attempt lastError,
            (remaining + attempt = S (maxRetries cfg))%nat ->
            outcome (attemptLoop cfg w k req parseFn remaining attempt lastError) = Returned v ->
            exists i r, (i <= maxRetries cfg)%nat /\
              fetch w (k + i)%nat req = Responded r /\ ok r = true /\ parseFn r = Returned v).
  { induction remaining as [|remaining IH]; intros attempt lastError Hsum H.
    - cbn in H. discriminate.
    - rewrite attemptLoop_S in H.
      destruct (attemptBody cfg attempt (fetch w (k + attempt)%nat req) parseFn) as [v'|e] eqn:E.
      + cbn [outcome] in H. injection H as ->.
        unfold attemptBody in E. destruct (fetch w (k + attempt)%nat req) as [t|r] eqn:Ef;
          [discriminate|].
        destruct (ok r) eqn:Hok; cbn [negb] in E.
        * exists attempt, r. repeat split; try assumption. lia.
        * unfold throwError in E.
          destruct (status r =? 429)%N; [discriminate|].
          destruct ((status r =? 401) || (status r =? 403))%N; [discriminate|].
          destruct ((500 <=? status r)%N && (attempt <? maxRetries cfg)%nat); discriminate.
      + destruct (instanceofPluginConfigurationError e); [discriminate|].
        destruct (terminal (toError e)); [discriminate|].
        cbn [outcome] in H. apply (IH (S attempt) (Some (toError e))); [lia|exact H]. }
  intros H. apply (G (S (maxRetries cfg)) 0%nat None); [lia|exact H].
Qed.

Lemma executeRequest_returns_a_parsed_answer_witness :
  exists i r,
    (i <= 3)%nat /\
    fetch Scenarios.flaky (0 + i)%nat GetVolume = Responded r /\ ok r = true /\
    parseVolume W24h r
    = Returned (VolumeWindow.mk W24h (JNum (Number_of_bigint 10000000)) (mkTimestamp 0)).
Proof.
  apply (executeRequest_returns_a_parsed_answer VolumeWindow.t Scenarios.service
           Scenarios.flaky 0 GetVolume (parseVolume W24h)).
  reflexivity.
Defined.

(** X5.  An unauthorized answer ends the run wherever it comes: after [j]
    retryable failures the attempt answered 401 or 403 is the last one,
    and the configuration error is raised after [j + 1] attempts and [j]
    pauses. *)
Theorem unauthorized_answer_stops_the_retries
  (T : Type) (svc : WormholeService.t) (w : World) (k j : nat) (req : Request)
  (parseFn : Response -> Completion T) :
  (j <= maxRetries (retryConfig svc))%nat ->
  (forall i, (i < j)%nat -> retryable (fetch w (k + i)%nat req) = true) ->
  unauthorizedAnswer (fetch w (k + j)%nat req) = true ->
  let run := executeRequest svc w k req parseFn in
  outcome run = Threw configurationError /\
  attempts run = S j /\
  backoffs (trace run) = List.map (backoffDelay (retryConfig svc)) (seq 0 j).
Proof.
  intros Hj Hfail Hauth run. set (cfg := retryConfig svc) in *.
  assert (G : forall d attempt lastError remaining,
            (attempt + d = j)%nat -> (remaining + attempt = S (maxRetries cfg))%nat ->
            attemptLoop cfg w k req parseFn remaining attempt lastError
            = mkRun (Threw configurationError) (S d) (retriedTrace cfg req attempt d)).
  { induction d as [|d IH]; intros attempt lastError remaining Hd Hrem.
    - destruct remaining as [|remaining]; [lia|].
      rewrite attemptLoop_S. replace attempt with j by lia.
      rewrite attemptBody_unauthorized by exact Hauth. reflexivity.
    - destruct remaining as [|remaining]; [lia|].
      rewrite attemptLoop_S.
      destruct (attemptBody_retryable T cfg attempt (fetch w (k + attempt)%nat req) parseFn)
        as (error & -> & -> & ->); [apply Hfail; lia|lia|].
      rewrite (IH (S attempt)) by lia. cbn [outcome attempts trace].
      replace (attempt <? maxRetries cfg)%nat with true by (symmetry; apply Nat.ltb_lt; lia).
      reflexivity. }
  unfold run, executeRequest. fold cfg. rewrite (G j 0%nat) by lia.
  cbn [outcome attempts trace]. repeat split. apply backoffs_retriedTrace.
Qed.

Lemma unauthorized_answer_stops_the_retries_witness :
  let run := executeRequest Scenarios.service revoked 0 GetHealth
               (fun response => readJson response) in
  outcome run = Threw configurationError /\
  attempts run = 3%nat /\
  backoffs (trace run) = [1000; 2000].
Proof.
  apply (unauthorized_answer_stops_the_retries JsVal Scenarios.service revoked 0 2 GetHealth
           (fun response => readJson response)).
  - cbn. lia.
  - intros i Hi. destruct i as [|[|i]]; [reflexivity|reflexivity|lia].
  - reflexivity.
Defined.

End RetryProperties.

(* ------------------------------------------------------------------ *)
(** * Further properties of the snapshot and its branches *)

Module SnapshotProperties.
Import Js Upstream WormholeService Statements Properties JsFacts RetryFacts VolumeFacts
  RateFacts RetryProperties.

Lemma getVolumesFrom_fetches svc w windows : forall k,
  (List.length windows <= snd (getVolumesFrom svc w k windows)
   <= List.length windows * S (maxRetries (retryConfig svc)))%nat.
Proof.
  induction windows as [|window rest IH]; intros k; [cbn; lia|].
  rewrite getVolumesFrom_cons. cbv zeta. cbn [snd List.length].
  destruct (attemptLoop_bounds VolumeWindow.t (retryConfig svc) w k GetVolume
              (parseVolume window) (S (maxRetries (retryConfig svc))) 0 None
              ltac:(lia) ltac:(lia)) as [Hb _].
  fold (executeRequest svc w k GetVolume (parseVolume window)) in Hb.
  specialize (IH (k + attempts (executeRequest svc w k GetVolume (parseVolume window)))%nat).
  lia.
Qed.

(** X6.  For every upstream, [getVolumes] yields exactly one entry per window
    asked, in the order asked and carrying that window, and issues between
    one and [maxRetries + 1] requests per window. *)
Theorem getVolumes_one_entry_per_window
  (svc : WormholeService.t) (w : World) (windows : list Window) :
  List.map VolumeWindow.window (getVolumes svc w windows) = windows /\
  (List.length windows <= snd (getVolumesFrom svc w 0 windows)
   <= List.length windows * S (maxRetries (retryConfig svc)))%nat.
Proof.
  split; [apply getVolumes_windows|apply getVolumesFrom_fetches].
Qed.

(** ** The rates branch *)

Lemma getRatesFrom_length svc w pairs : forall k rates,
  getRatesFrom svc w k pairs = Returned rates -> List.length rates = List.length pairs.
Proof.
  induction pairs as [|[route notional] rest IH]; intros k rates H.
  - cbn in H. injection H as <-. reflexivity.
  - rewrite getRatesFrom_cons in H. cbv zeta in H. unfold bind in H.
    destruct (match outcome _ with Returned rate => Returned rate | Threw _ => _ end)
      as [rate|]; [|discriminate].
    destruct (getRatesFrom svc w _ rest) as [rates'|] eqn:E; [|discriminate].
    injection H as <-. cbn [List.length]. f_equal. exact (IH _ _ E).
Qed.

Lemma normalizeRate_needs_amountIn source destination amountIn apiData now :
  StringToBigInt amountIn = None ->
  exists t, normalizeRate source destination amountIn apiData now = Threw t.
Proof.
  intros H. unfold normalizeRate, BigInt_of_string. rewrite H. cbn [bind throwError]. eauto.
Qed.

Lemma estimateRate_needs_amountIn source destination amountIn now :
  StringToBigInt amountIn = None ->
  exists t, estimateRate source destination amountIn now = Threw t.
Proof.
  intros H. unfold estimateRate, BigInt_of_string. rewrite H. cbn [bind throwError]. eauto.
Qed.

Lemma getRatesFrom_rejects svc w pairs : forall k,
  (exists pair, In pair pairs /\ StringToBigInt (snd pair) = None) ->
  exists t, getRatesFrom svc w k pairs = Threw t.
Proof.
  induction pairs as [|[route notional] rest IH]; intros k (pair & Hin & Hbad);
    [destruct Hin|].
  rewrite getRatesFrom_cons. cbv zeta.
  set (run := executeRequest svc w k (PostQuote route notional) _).
  destruct Hin as [<-|Hin].
  - cbn [snd] in Hbad.
    destruct (outcome run) as [rate|t] eqn:E.
    + apply attemptLoop_returned in E as (r & _ & Hp).
      unfold bind in Hp. destruct (readJson r) as [data|]; [|discriminate].
      destruct (normalizeRate_needs_amountIn (source route) (destination route) notional data
                  (arrival r) Hbad) as (t & Ht).
      rewrite Ht in Hp. discriminate.
    + destruct (estimateRate_needs_amountIn (source route) (destination route) notional
                  (clock w (k + attempts run)%nat) Hbad) as (t' & ->).
      cbn [bind]. eauto.
  - destruct (match outcome run with Returned rate => Returned rate | Threw _ => _ end)
      as [rate|t]; cbn [bind]; [|eauto].
    destruct (IH (k + attempts run)%nat (ex_intro _ pair (conj Hin Hbad))) as (t & ->).
    cbn [bind]. eauto.
Qed.

(** X7.  A notional that is not an integer literal makes the whole snapshot
    fail, whatever the upstream answers: neither the quote path nor the
    fallback estimate can convert it, the rates branch rejects, and
    [getSnapshot] fails with a plain [Error] "Failed to fetch snapshot: ...". *)
Theorem snapshot_fails_on_a_notional_that_is_no_integer
  (svc : WormholeService.t) (v : Views) (mapAssets : JsVal -> Completion (list Asset))
  (route : Route) (routes : list Route) (notionals : list string) (notional : string)
  (windows : option (list Window)) :
  In notional notionals ->
  StringToBigInt notional = None ->
  exists reason,
    getSnapshot svc v mapAssets (mkParams (route :: routes) notionals windows)
    = Effect.Failure (mkError Error_ ("Failed to fetch snapshot: " ++ reason)).
Proof.
  intros Hin Hbad. unfold getSnapshot, getRates. cbn [WormholeService.routes WormholeService.notionals].
  destruct (getRatesFrom_rejects svc (ratesView v) (list_prod (route :: routes) notionals) 0)
    as (t & ->).
  - exists (route, notional). split; [|exact Hbad].
    apply in_prod; [left; reflexivity|exact Hin].
  - cbn [bind Effect.tryPromise]. eauto.
Qed.

Lemma snapshot_fails_on_a_notional_that_is_no_integer_witness :
  exists reason,
    getSnapshot Scenarios.service (Scenarios.everywhere Scenarios.parMarket) Scenarios.noAssets
      (mkParams [Scenarios.usdcRoute] ["1000000"; "1.5"] None)
    = Effect.Failure (mkError Error_ ("Failed to fetch snapshot: " ++ reason)).
Proof.
  apply (snapshot_fails_on_a_notional_that_is_no_integer Scenarios.service
           (Scenarios.everywhere Scenarios.parMarket) Scenarios.noAssets Scenarios.usdcRoute
           [] ["1000000"; "1.5"] "1.5" None).
  - right. left. reflexivity.
  - reflexivity.
Defined.

(** ** The liquidity branch *)

Lemma getLiquidityDepthFrom_shape svc views routes : forall i,
  List.map LiquidityDepth.route (getLiquidityDepthFrom svc views i routes) = routes /\
  Forall (fun depth =>
            List.map LiquidityThreshold.slippageBps (LiquidityDepth.thresholds depth)
            = [Number_of_bigint 50; Number_of_bigint 100])
         (getLiquidityDepthFrom svc views i routes).
Proof.
  induction routes as [|route rest IH]; intros i; [split; [reflexivity|constructor]|].
  destruct (IH (S i)) as [IH1 IH2].
  cbn [getLiquidityDepthFrom]. cbv zeta. unfold findMaxLiquidity. cbn [bind].
  cbn [List.map LiquidityDepth.route]. split; [f_equal; exact IH1|].
  constructor; [reflexivity|exact IH2].
Qed.

(** X8.  A snapshot that is returned has the shape the request asks for: one
    volume entry per window in order (the 24h window alone when none is
    given), one rate per (route, notional) pair, and one liquidity entry per
    route in order, each with exactly the two thresholds 50 and 100 basis
    points in that order. *)
Theorem snapshot_has_the_requested_shape
  (svc : WormholeService.t) (v : Views) (mapAssets : JsVal -> Completion (list Asset))
  (params : SnapshotParams) (snapshot : ProviderSnapshot.t) :
  getSnapshot svc v mapAssets params = Effect.Success snapshot ->
  List.map VolumeWindow.window (ProviderSnapshot.volumes snapshot)
  = match includeWindows params with Some windows => windows | None => [W24h] end /\
  List.length (ProviderSnapshot.rates snapshot)
  = (List.length (routes params) * List.length (notionals params))%nat /\
  List.map LiquidityDepth.route (ProviderSnapshot.liquidity snapshot) = routes params /\
  Forall (fun depth =>
            List.map LiquidityThreshold.slippageBps (LiquidityDepth.thresholds depth)
            = [Number_of_bigint 50; Number_of_bigint 100])
         (ProviderSnapshot.liquidity snapshot).
Proof.
  intros H. pose proof (getSnapshot_volumes _ _ _ _ _ H) as Hv.
  unfold getSnapshot, Effect.tryPromise, bind in H.
  destruct (getRates svc (ratesView v) (routes params) (notionals params)) as [rates|] eqn:Er;
    [|discriminate].
  injection H as <-. cbn [ProviderSnapshot.volumes ProviderSnapshot.rates ProviderSnapshot.liquidity].
  split; [apply getVolumes_windows|]. split.
  - unfold getRates in Er. rewrite (getRatesFrom_length _ _ _ _ _ Er).
    apply length_prod.
  - apply getLiquidityDepthFrom_shape.
Qed.

Lemma snapshot_has_the_requested_shape_witness :
  List.map VolumeWindow.window (ProviderSnapshot.volumes Scenarios.unauthorizedSnapshot)
  = [W24h] /\
  List.length (ProviderSnapshot.rates Scenarios.unauthorizedSnapshot) = (1 * 1)%nat /\
  List.map LiquidityDepth.route (ProviderSnapshot.liquidity Scenarios.unauthorizedSnapshot)
  = [Scenarios.usdcRoute] /\
  Forall (fun depth =>
            List.map LiquidityThreshold.slippageBps (LiquidityDepth.thresholds depth)
            = [Number_of_bigint 50; Number_of_bigint 100])
         (ProviderSnapshot.liquidity Scenarios.unauthorizedSnapshot).
Proof.
  apply (snapshot_has_the_requested_shape Scenarios.service
           (Scenarios.everywhere Scenarios.unauthorized) Scenarios.noAssets
           (mkParams [Scenarios.usdcRoute] ["1000000"] None) Scenarios.unauthorizedSnapshot).
  vm_compute. reflexivity.
Defined.

End SnapshotProperties.

(* ------------------------------------------------------------------ *)
(** * Further properties of the rate normalisation *)

Module RateProperties.
Import Js Upstream WormholeService Statements Properties JsFacts RateFacts.

(** What a rate [normalizeRate] returns is made of. *)
Lemma normalizeRate_returned source destination amountIn fields now rate :
  normalizeRate source destination amountIn (JObj fields) now = Returned rate ->
  exists amountInNum amountOutNum,
    StringToBigInt amountIn = Some amountInNum /\
    truthy (amountOutRaw fields) = true /\
    BigInt_of_String_of_value (amountOutRaw fields) = Returned amountOutNum /\
    rate = Rate.mk source destination
             (BigInt_toString amountInNum) (BigInt_toString amountOutNum)
             (fdiv (fdiv (Number_of_bigint amountOutNum)
                         (Number_of_bigint (multiplier (decimals destination))))
                   (fdiv (Number_of_bigint amountInNum)
                         (Number_of_bigint (multiplier (decimals source)))))
             (match isUsableNumber (feeAmount fields) with
              | Some fee => fee
              | None => estimateFeesUsd amountInNum (decimals source)
              end)
             now.
Proof.
  intros H.
  destruct (StringToBigInt amountIn) as [a|] eqn:Ein;
    [|unfold normalizeRate, BigInt_of_string in H; rewrite Ein in H; discriminate].
  destruct (truthy (amountOutRaw fields)) eqn:Et.
  - destruct (BigInt_of_String_of_value (amountOutRaw fields)) as [aout|] eqn:Eout.
    + rewrite (normalizeRate_object _ _ _ _ _ _ _ Ein Et Eout) in H. cbv zeta in H.
      destruct (feqb _ (S754_zero false)); [discriminate|].
      injection H as <-. exists a, aout. repeat split.
    + unfold normalizeRate, BigInt_of_string in H. rewrite Ein in H. cbn [bind] in H.
      rewrite !prop_object in H. cbn [bind] in H. fold (amountOutRaw fields) in H.
      rewrite Et, Eout in H. discriminate.
  - unfold normalizeRate, BigInt_of_string in H. rewrite Ein in H. cbn [bind] in H.
    rewrite !prop_object in H. cbn [bind] in H. fold (amountOutRaw fields) in H.
    rewrite Et in H. discriminate.
Qed.

(** X9.  The fee of a normalised rate.  A fee field that holds a number is
    reported as it is; when the quote has no fee, totalFees or feeUsd field
    that is truthy, the fee reported is 0 and the 5 basis point estimate is
    not used; the estimate is used only for a truthy fee that is not a
    number, such as a string, and for a source asset of at most 22
    decimals, where [10 ** decimals] is exact, it is the value of
    [estimateFeesUsd]. *)
Theorem fee_is_estimated_only_for_a_fee_that_is_no_number
  (source destination : Asset) (amountIn : string) (fields : list (string * JsVal))
  (now : Timestamp) (rate : Rate.t) :
  normalizeRate source destination amountIn (JObj fields) now = Returned rate ->
  (truthy (feeAmount fields) = false -> Rate.totalFeesUsd rate = S754_zero false) /\
  (forall fee, feeAmount fields = JNum fee -> truthy (feeAmount fields) = true ->
               Rate.totalFeesUsd rate = fee) /\
  (forall text, feeAmount fields = JStr text -> (decimals source <= 22)%nat ->
     exists amountInNum,
       StringToBigInt amountIn = Some amountInNum /\
       Rate.totalFeesUsd rate = estimateFeesUsd amountInNum (decimals source)).
Proof.
  intros H. destruct (normalizeRate_returned _ _ _ _ _ _ H)
    as (a & aout & Hin & _ & _ & ->). cbn [Rate.totalFeesUsd].
  split; [|split].
  - intros Hfalsy. unfold feeAmount in *. unfold or_else at 1. unfold or_else at 1 in Hfalsy.
    destruct (truthy (or_else (or_else (lookup fields "fee") (lookup fields "totalFees"))
                              (lookup fields "feeUsd"))) eqn:E; [congruence|reflexivity].
  - intros fee -> Ht. cbn [isUsableNumber]. destruct fee; try reflexivity. discriminate.
  - intros text -> _. exists a. split; [exact Hin|reflexivity].
Qed.

Lemma fee_is_estimated_only_for_a_fee_that_is_no_number_witness :
  exists rate,
    normalizeRate Scenarios.usdcEthereum Scenarios.usdcPolygon "1000000"
      Scenarios.quote995 (mkTimestamp 0) = Returned rate /\
    Rate.totalFeesUsd rate = S754_zero false.
Proof.
  eexists. split; [vm_compute; reflexivity|].
  refine (proj1 (fee_is_estimated_only_for_a_fee_that_is_no_number Scenarios.usdcEthereum
                   Scenarios.usdcPolygon "1000000" [("amountOut", JStr "995000")]
                   (mkTimestamp 0) _ _) _).
  - vm_compute. reflexivity.
  - reflexivity.
Defined.

(** X10.  A quote whose output amount is absent, or present but falsy (the
    number 0, the empty string, [null]), is rejected with "Missing
    amountOut in API response" as soon as the input amount reads as an
    integer. *)
Theorem quote_without_amountOut_is_rejected
  (source destination : Asset) (amountIn : string) (fields : list (string * JsVal))
  (now : Timestamp) (amountInNum : Z) :
  StringToBigInt amountIn = Some amountInNum ->
  truthy (amountOutRaw fields) = false ->
  normalizeRate source destination amountIn (JObj fields) now
  = throwError Error_ "Missing amountOut in API response".
Proof.
  intros Hin Hfalsy. unfold normalizeRate, BigInt_of_string. rewrite Hin. cbn [bind].
  rewrite !prop_object. cbn [bind]. fold (amountOutRaw fields). rewrite Hfalsy. reflexivity.
Qed.

Lemma quote_without_amountOut_is_rejected_witness :
  normalizeRate Scenarios.usdcEthereum Scenarios.usdcPolygon "1000000"
    (JObj [("amountOut", JNum (Number_of_bigint 0)); ("fee", JNum (Number_of_bigint 3))])
    (mkTimestamp 0)
  = throwError Error_ "Missing amountOut in API response".
Proof.
  apply (quote_without_amountOut_is_rejected Scenarios.usdcEthereum Scenarios.usdcPolygon
           "1000000"
           [("amountOut", JNum (Number_of_bigint 0)); ("fee", JNum (Number_of_bigint 3))]
           (mkTimestamp 0) 1000000); reflexivity.
Defined.



End RateProperties.

(* ------------------------------------------------------------------ *)
(** * Further properties of the liquidity probe *)

Module ProbeProperties.
Import Js Upstream WormholeService Statements Properties JsFacts RetryFacts RateFacts ProbeFacts
       RetryProperties.

(** Whatever the probe measured, the iteration is a bisection step. *)
Lemma searchStep_decides slippageBps st measured :
  exists pass, searchStep slippageBps st measured = bisectStep (fun _ => pass) st.
Proof.
  destruct measured as [actual|t].
  - exists (fleb actual slippageBps). unfold searchStep, bisectStep.
    destruct (fleb actual slippageBps); reflexivity.
  - exists false. reflexivity.
Qed.

Lemma pow2_bounds done : (done <= 20)%nat -> 1 <= 2 ^ Z.of_nat done <= 1048576.
Proof.
  intros H. split.
  - apply (Z.pow_le_mono_r 2 0 (Z.of_nat done)); lia.
  - change 1048576 with (2 ^ 20). apply Z.pow_le_mono_r; lia.
Qed.

Lemma pow2_S done : 2 ^ Z.of_nat (S done) = 2 * 2 ^ Z.of_nat done.
Proof. rewrite Nat2Z.inj_succ, Z.pow_succ_r by lia. reflexivity. Qed.

Lemma testAmountOf_bounds st :
  2 * testAmountOf st <= minAmount st + maxAmount st < 2 * testAmountOf st + 2.
Proof.
  unfold testAmountOf.
  pose proof (Z.div_mod (minAmount st + maxAmount st) 2 ltac:(lia)).
  pose proof (Z.mod_pos_bound (minAmount st + maxAmount st) 2 ltac:(lia)). lia.
Qed.

(** Before the last iteration the midpoint is strictly inside the window,
    and the step keeps the window wide. *)
Lemma bisectStep_wideEnough pass done st :
  (done < 20)%nat -> wideEnough done st ->
  wideEnough (S done) (bisectStep pass st) /\
  minAmount st < testAmountOf st < maxAmount st.
Proof.
  intros Hdone (Hlo & Hhi & Hmin & Hmax).
  pose proof (pow2_bounds done ltac:(lia)) as Hp.
  assert (Hp19 : 2 ^ Z.of_nat done <= 524288).
  { change 524288 with (2 ^ 19). apply Z.pow_le_mono_r; lia. }
  pose proof (testAmountOf_bounds st) as Hmid.
  unfold wideEnough. rewrite pow2_S. unfold bisectStep.
  set (mid := testAmountOf st) in *. set (p := 2 ^ Z.of_nat done) in *.
  assert (Hw : 20 <= maxAmount st - minAmount st + 3) by nia.
  destruct (pass mid); cbn [minAmount maxAmount bestAmount]; repeat split; nia.
Qed.

Lemma bisectStep_best pass st lo hi :
  lo <= bestAmount st < hi -> lo <= testAmountOf st < hi ->
  lo <= bestAmount (bisectStep pass st) < hi.
Proof. intros Hb Hm. unfold bisectStep. destruct (pass _); cbn [bestAmount]; lia. Qed.

Lemma searchLoop_ranged svc w route slippageBps : forall n done k st,
  (done + n <= 20)%nat -> wideEnough done st ->
  1000 <= bestAmount st < 10000000 ->
  let run := searchLoop svc w route slippageBps n k st in
  wideEnough (done + n) (final run) /\
  1000 <= bestAmount (final run) < 10000000 /\
  Forall (fun amount => 1000 < amount < 10000000) (probed run).
Proof.
  induction n as [|n IH]; intros done k st Hn Hwide Hbest.
  - cbn [searchLoop final probed]. rewrite Nat.add_0_r.
    split; [exact Hwide|]. split; [exact Hbest|constructor].
  - rewrite searchLoop_S. cbv zeta. cbn [final probed].
    destruct (searchStep_decides slippageBps st
                (outcome (probe svc w k route (testAmountOf st)))) as (pass & ->).
    destruct (bisectStep_wideEnough (fun _ => pass) done st ltac:(lia) Hwide) as (Hw' & Hmid).
    assert (Hrange : 1000 < testAmountOf st < 10000000)
      by (destruct Hwide as (? & ? & _); lia).
    destruct (IH (S done) (k + attempts (probe svc w k route (testAmountOf st)))%nat
                (bisectStep (fun _ => pass) st) ltac:(lia) Hw'
                (bisectStep_best _ st 1000 10000000 Hbest ltac:(lia))) as (H1 & H2 & H3).
    replace (done + S n)%nat with (S done + n)%nat by lia.
    split; [exact H1|]. split; [exact H2|]. constructor; assumption.
Qed.

Lemma wideEnough_initial : wideEnough 0 initialSearch.
Proof. unfold wideEnough, initialSearch. cbn. lia. Qed.

Lemma wideEnough_20 st :
  wideEnough 20 st -> 7 <= maxAmount st - minAmount st <= 8.
Proof.
  intros (_ & _ & Hmin & Hmax). change (2 ^ Z.of_nat 20) with 1048576 in *. lia.
Qed.

(** X12.  Whatever the upstream answers, the amount [findMaxLiquidity]
    reports is at least 1000 and less than 10,000,000 whole tokens; every
    amount it asks a quote for is strictly between the two bounds, so the
    bounds themselves are never quoted; and the twenty iterations do not
    exhaust the range: they end with a window of 8 or 9 amounts that were
    never quoted. *)
Theorem findMaxLiquidity_stays_within_the_search_bounds
  (svc : WormholeService.t) (w : World) (route : Route) (slippageBps : number) :
  exists best,
    findMaxLiquidity svc w route slippageBps
    = Returned (LiquidityThreshold.mk
                  (BigInt_toString (best * 10 ^ Z.of_nat (decimals (source route))))
                  slippageBps) /\
    1000 <= best < 10000000 /\
    Forall (fun amount => 1000 < amount < 10000000)
           (probed (search svc w route slippageBps)) /\
    7 <= maxAmount (final (search svc w route slippageBps))
         - minAmount (final (search svc w route slippageBps)) <= 8.
Proof.
  destruct (searchLoop_ranged svc w route slippageBps 20 0 0 initialSearch ltac:(lia)
              wideEnough_initial ltac:(cbn; lia)) as (Hw & Hb & Hp).
  exists (bestAmount (final (search svc w route slippageBps))).
  split; [reflexivity|]. split; [exact Hb|]. split; [exact Hp|].
  apply wideEnough_20. exact Hw.
Qed.

Lemma searchLoop_nothing_passes svc w route slippageBps :
  (forall k amount,
     match outcome (probe svc w k route amount) with
     | Returned actual => fleb actual slippageBps
     | Threw _ => false
     end = false) ->
  forall n k st,
    bestAmount (final (searchLoop svc w route slippageBps n k st)) = bestAmount st.
Proof.
  intros Hnone. induction n as [|n IH]; intros k st; [reflexivity|].
  rewrite searchLoop_S. cbv zeta. cbn [final]. rewrite IH.
  specialize (Hnone k (testAmountOf st)). unfold searchStep.
  destruct (outcome (probe svc w k route (testAmountOf st))) as [actual|t].
  - rewrite Hnone. reflexivity.
  - reflexivity.
Qed.

(** X13.  When no quote is within the threshold (the upstream is down,
    refuses the key, or quotes too low), [findMaxLiquidity] still returns
    a figure: the lower bound of the search, 1000 whole tokens. *)
Theorem findMaxLiquidity_reports_the_lower_bound_when_no_quote_passes
  (svc : WormholeService.t) (w : World) (route : Route) (slippageBps : number) :
  (forall k amount,
     match outcome (probe svc w k route amount) with
     | Returned actual => fleb actual slippageBps
     | Threw _ => false
     end = false) ->
  findMaxLiquidity svc w route slippageBps
  = Returned (LiquidityThreshold.mk
                (BigInt_toString (1000 * 10 ^ Z.of_nat (decimals (source route))))
                slippageBps).
Proof.
  intros Hnone. unfold findMaxLiquidity, search.
  rewrite (searchLoop_nothing_passes svc w route slippageBps Hnone). reflexivity.
Qed.

Lemma findMaxLiquidity_reports_the_lower_bound_when_no_quote_passes_witness :
  findMaxLiquidity Scenarios.service Scenarios.unauthorized Scenarios.usdcRoute
    (Number_of_bigint 50)
  = Returned (LiquidityThreshold.mk "1000000000" (Number_of_bigint 50)).
Proof.
  refine (findMaxLiquidity_reports_the_lower_bound_when_no_quote_passes
            Scenarios.service Scenarios.unauthorized Scenarios.usdcRoute
            (Number_of_bigint 50) _).
  intros k amount. unfold probe. cbn [outcome].
  rewrite executeRequest_unauthorized by reflexivity. reflexivity.
Defined.

(** The bisection over a sharp limit [T]: amounts up to [T] pass, larger
    ones fail. *)
Lemma bisect_sharp pass T :
  (forall x, 1000 < x < 10000000 -> pass x = (x <=? T)) ->
  forall n done st,
    (done + n <= 20)%nat -> wideEnough done st ->
    minAmount st <= T + 1 -> T <= maxAmount st ->
    (bestAmount st = minAmount st - 1 \/ (bestAmount st = 1000 /\ minAmount st = 1000)) ->
    let st' := bisect pass n st in
    wideEnough (done + n) st' /\ minAmount st' <= T + 1 /\ T <= maxAmount st' /\
    (bestAmount st' = minAmount st' - 1 \/ (bestAmount st' = 1000 /\ minAmount st' = 1000)).
Proof.
  intros Hpass. induction n as [|n IH]; intros done st Hn Hwide Hlo Hhi Hbest.
  - cbn [bisect]. rewrite Nat.add_0_r. auto.
  - rewrite bisect_step. replace (done + S n)%nat with (S done + n)%nat by lia.
    destruct (bisectStep_wideEnough pass done st ltac:(lia) Hwide) as (Hw' & Hmid).
    apply IH; [lia|exact Hw'| | |];
      unfold bisectStep; rewrite Hpass by (destruct Hwide as (? & ? & _); lia);
      destruct (Z.leb_spec (testAmountOf st) T); cbn [minAmount maxAmount bestAmount]; lia.
Qed.

Lemma executeRequest_refused_throws (T : Type) svc w k req (parseFn : Response -> Completion T) :
  (forall i, (i <= maxRetries (retryConfig svc))%nat -> refused (fetch w (k + i)%nat req) = true) ->
  exists t, outcome (executeRequest svc w k req parseFn) = Threw t.
Proof.
  intros Hall. set (cfg := retryConfig svc) in *.
  assert (Hfail : forall i, (i <= maxRetries cfg)%nat ->
            exists e, attemptBody cfg i (fetch w (k + i)%nat req) parseFn = Threw e /\
                      rethrownAtOnce e = false).
  { intros i Hi. specialize (Hall i Hi).
    destruct (fetch w (k + i)%nat req) as [t|r] eqn:E; [discriminate|].
    destruct (attemptBody_refused T cfg i r parseFn Hall) as (msg & Hb & Hclean & _).
    eexists. split; [exact Hb|].
    unfold rethrownAtOnce, terminal. cbn. exact Hclean. }
  destruct (attemptLoop_exhausts T cfg w k req parseFn Hfail (S (maxRetries cfg)) 0 None
              ltac:(lia) ltac:(lia)) as (e & He & Hrun).
  unfold executeRequest. fold cfg. rewrite Hrun. cbn [outcome]. eauto.
Qed.

(** The limited market passes exactly the amounts up to its limit. *)
Lemma limitedMarket_sharp limit amount :
  0 < amount ->
  withinThreshold Scenarios.service (limitedMarket limit) Scenarios.usdcRoute
    (Number_of_bigint 50) amount
  = (amount <=? limit).
Proof.
  intros Hpos. unfold withinThreshold, realizedSlippage, probe. cbn [outcome].
  assert (Hfetch : forall k,
            fetch (limitedMarket limit) k
              (PostQuote Scenarios.usdcRoute (inSmallestUnits Scenarios.usdcRoute amount))
            = if amount <=? limit
              then Scenarios.respond 200 "OK"
                     (Some (JObj [("amountOut",
                                   JStr (inSmallestUnits Scenarios.usdcRoute amount))]))
              else Scenarios.respond 422 "Unprocessable Entity" None).
  { intros k. cbn [fetch limitedMarket]. unfold inSmallestUnits.
    rewrite StringToBigInt_toString.
    change (multiplier (decimals (source Scenarios.usdcRoute))) with 1000000.
    destruct (Z.leb_spec amount limit), (Z.leb_spec (amount * 1000000) (limit * 1000000));
      try reflexivity; lia. }
  destruct (Z.leb_spec amount limit) as [Hle|Hgt].
  - unfold executeRequest. rewrite attemptLoop_S. rewrite Hfetch.
    cbn [Scenarios.respond attemptBody ok status negb
         readJson json outcome bind N.leb N.compare Pos.compare Pos.compare_cont andb].
    change (JObj [("amountOut", JStr (inSmallestUnits Scenarios.usdcRoute amount))])
      with (quoteOf (amount * multiplier (decimals (source Scenarios.usdcRoute)))).
    rewrite calculateSlippage_quote.
    replace (amount * multiplier (decimals (destination Scenarios.usdcRoute))
             - amount * multiplier (decimals (source Scenarios.usdcRoute))) with 0
      by (cbn [Scenarios.usdcRoute source destination decimals Scenarios.usdcEthereum
               Scenarios.usdcPolygon]; lia).
    change (fmul (Number_of_bigint 0) (Number_of_bigint 10000)) with (Number_of_bigint 0).
    rewrite fdiv_zero_by_positive
      by (pose proof (multiplier_pos (decimals (destination Scenarios.usdcRoute))); nia).
    reflexivity.
  - destruct (executeRequest_refused_throws JsVal Scenarios.service (limitedMarket limit) 0
                (PostQuote Scenarios.usdcRoute (inSmallestUnits Scenarios.usdcRoute amount))
                readJson) as (t & ->).
    + intros i _. rewrite Hfetch. reflexivity.
    + reflexivity.
Qed.

(** X14.  On an upstream that answers a request the same way whenever it is
    asked and quotes within the threshold exactly the amounts up to a limit
    [T] between the search bounds, the amount [findMaxLiquidity] reports is
    never above the limit and falls short of it by at most 9 whole tokens. *)
Theorem findMaxLiquidity_is_within_nine_tokens_of_a_sharp_limit
  (svc : WormholeService.t) (w : World) (route : Route) (slippageBps : number) (T : Z) :
  deterministic w ->
  1000 <= T <= 10000000 ->
  (forall amount, 1000 < amount < 10000000 ->
     withinThreshold svc w route slippageBps amount = (amount <=? T)) ->
  exists best,
    findMaxLiquidity svc w route slippageBps
    = Returned (LiquidityThreshold.mk
                  (BigInt_toString (best * 10 ^ Z.of_nat (decimals (source route))))
                  slippageBps) /\
    best <= T <= best + 9.
Proof.
  intros Hdet HT Hsharp.
  exists (bestAmount (final (search svc w route slippageBps))).
  split; [reflexivity|].
  unfold search. rewrite (searchLoop_bisect svc w route slippageBps Hdet).
  destruct (bisect_sharp (withinThreshold svc w route slippageBps) T Hsharp 20 0 initialSearch
              ltac:(lia) wideEnough_initial ltac:(cbn; lia) ltac:(cbn; lia)
              ltac:(right; split; reflexivity)) as (Hw & Hlo & Hhi & Hbest).
  apply wideEnough_20 in Hw. lia.
Qed.

Lemma findMaxLiquidity_is_within_nine_tokens_of_a_sharp_limit_witness :
  exists best,
    findMaxLiquidity Scenarios.service (limitedMarket 250000) Scenarios.usdcRoute
      (Number_of_bigint 50)
    = Returned (LiquidityThreshold.mk (BigInt_toString (best * 10 ^ Z.of_nat 6))
                  (Number_of_bigint 50)) /\
    best <= 250000 <= best + 9.
Proof.
  apply (findMaxLiquidity_is_within_nine_tokens_of_a_sharp_limit Scenarios.service
           (limitedMarket 250000) Scenarios.usdcRoute (Number_of_bigint 50) 250000).
  - intros k k' req. reflexivity.
  - lia.
  - intros amount Hrange. apply limitedMarket_sharp. lia.
Defined.

End ProbeProperties.

(* ------------------------------------------------------------------ *)
(** * Further properties of the health probes and of the rate limiter *)

Module HealthProperties.
Import Js Upstream WormholeService Statements Properties JsFacts RetryFacts.

(** A run whose every [fetch] rejects returns nothing. *)
Lemma attemptLoop_rejected (T : Type) cfg w k req (parseFn : Response -> Completion T) :
  (forall i, exists t, fetch w i req = Rejected t) ->
  forall remaining attempt lastError,
    exists t, outcome (attemptLoop cfg w k req parseFn remaining attempt lastError) = Threw t.
Proof.
  intros Hdown. induction remaining as [|remaining IH]; intros attempt lastError.
  - cbn [attemptLoop outcome]. destruct lastError; eauto.
  - rewrite attemptLoop_S. destruct (Hdown (k + attempt)%nat) as (t & ->).
    cbn [attemptBody].
    destruct (instanceofPluginConfigurationError t); [cbn [outcome]; eauto|].
    destruct (terminal (toError t)); [cbn [outcome]; eauto|].
    cbn [outcome]. apply IH.
Qed.

(** X15.  The value [ping] carries says "ok" on both channels, and the
    channel tells the health of the upstream: the effect succeeds only if
    one of the attempts, at most [maxRetries + 1], was answered with a 2xx
    status, and it fails only if the health request returned nothing. *)
Theorem ping_says_ok_on_both_channels (svc : WormholeService.t) (w : World) :
  match ping svc w with
  | Effect.Success result =>
      PingResult.status result = "ok" /\
      exists i r, (i <= maxRetries (retryConfig svc))%nat /\
                  fetch w i GetHealth = Responded r /\ ok r = true
  | Effect.Failure result =>
      PingResult.status result = "ok" /\
      exists t, outcome (executeRequest svc w 0 GetHealth
                           (fun _ => Returned (JObj [("status", JStr "ok")]))) = Threw t
  end.
Proof.
  unfold ping, Effect.tryPromise, okResult.
  destruct (outcome (executeRequest svc w 0 GetHealth _)) as [v|t] eqn:E; cbn [bind].
  - split; [reflexivity|].
    set (cfg := retryConfig svc).
    assert (G : forall remaining attempt lastError,
              (remaining + attempt = S (maxRetries cfg))%nat ->
              outcome (attemptLoop cfg w 0 GetHealth
                         (fun _ => Returned (JObj [("status", JStr "ok")]))
                         remaining attempt lastError) = Returned v ->
              exists i r, (i <= maxRetries cfg)%nat /\
                          fetch w i GetHealth = Responded r /\ ok r = true).
    { clear. induction remaining as [|remaining IH]; intros attempt lastError Hsum H.
      - cbn in H. discriminate.
      - rewrite attemptLoop_S in H. cbn [Nat.add] in H.
        destruct (attemptBody cfg attempt (fetch w attempt GetHealth) _) as [v'|e] eqn:E.
        + unfold attemptBody in E. destruct (fetch w attempt GetHealth) as [t|r] eqn:Ef;
            [discriminate|].
          destruct (ok r) eqn:Hok; cbn [negb] in E.
          * exists attempt, r. repeat split; try assumption; lia.
          * unfold throwError in E.
            destruct (status r =? 429)%N; [discriminate|].
            destruct ((status r =? 401) || (status r =? 403))%N; [discriminate|].
            destruct ((500 <=? status r)%N && (attempt <? maxRetries cfg)%nat); discriminate.
        + destruct (instanceofPluginConfigurationError e); [discriminate|].
          destruct (terminal (toError e)); [discriminate|].
          cbn [outcome] in H. apply (IH (S attempt) (Some (toError e))); [lia|exact H]. }
    apply (G (S (maxRetries cfg)) 0%nat None); [lia|exact E].
  - split; [reflexivity|]. eauto.
Qed.

(** X16.  The two health probes of the repository disagree when the upstream
    is down.  With every [fetch] rejecting, the probe of the
    operations-based service succeeds with "ok" after its single request,
    and the probe of the retrying service fails, carrying "ok" on the
    failure channel. *)
Theorem pings_disagree_when_every_fetch_rejects
  (svc : WormholeService.t) (operations : WormholescanService.t) (w : World) :
  (forall i req, exists t, fetch w i req = Rejected t) ->
  WormholescanService.ping operations w = Effect.Success (PingResult.mk "ok" (clock w 1)) /\
  exists now, WormholeService.ping svc w = Effect.Failure (PingResult.mk "ok" now).
Proof.
  intros Hdown. split.
  - unfold WormholescanService.ping, WormholescanService.pingAttempt.
    destruct (Hdown 0%nat (GetOperations 1)) as (t & ->). reflexivity.
  - unfold ping, Effect.tryPromise, okResult.
    destruct (attemptLoop_rejected JsVal (retryConfig svc) w 0 GetHealth
                (fun _ => Returned (JObj [("status", JStr "ok")]))
                (fun i => Hdown i GetHealth) (S (maxRetries (retryConfig svc))) 0%nat None)
      as (t & Ht).
    unfold executeRequest at 1. rewrite Ht. cbn [bind]. eauto.
Qed.

Lemma pings_disagree_when_every_fetch_rejects_witness :
  WormholescanService.ping (WormholescanService.new "https://api.wormholescan.io" 5000 10)
    Scenarios.outage
  = Effect.Success (PingResult.mk "ok" (clock Scenarios.outage 1)) /\
  exists now, WormholeService.ping Scenarios.service Scenarios.outage
              = Effect.Failure (PingResult.mk "ok" now).
Proof.
  apply (pings_disagree_when_every_fetch_rejects Scenarios.service
           (WormholescanService.new "https://api.wormholescan.io" 5000 10) Scenarios.outage).
  intros i req. eexists. reflexivity.
Defined.

End HealthProperties.

Module LimiterProperties.
Import Js Upstream WormholeService Statements Properties.
Local Open Scope Q_scope.



(** X18.  The constructor caps the rate at ten requests per second: for any
    positive [requestsPerSecond] the interval of the limiter is at least
    100 ms, and it is exactly 100 ms for every setting of 10 or more. *)
Theorem limiter_interval_is_at_least_100ms
  (baseUrl apiKey : string) (timeout : Z) (requestsPerSecond : Q) (maxRetries : nat) :
  0 < requestsPerSecond ->
  let limiter := rateLimiter (WormholeService.new baseUrl apiKey timeout requestsPerSecond
                                maxRetries) in
  100 <= RateLimiter.minIntervalMs limiter /\
  (10 <= requestsPerSecond -> RateLimiter.minIntervalMs limiter == 100) /\
  RateLimiter.lastCallTime limiter == 0.
Proof.
  intros Hpos limiter. unfold limiter, WormholeService.new, RateLimiter.create.
  cbn [rateLimiter RateLimiter.minIntervalMs RateLimiter.lastCallTime].
  split; [apply Q.le_max_l|]. split; [|reflexivity].
  intros Hfast. apply Q.max_l.
  apply Qle_shift_div_r; [exact Hpos|]. lra.
Qed.

Lemma limiter_interval_is_at_least_100ms_witness :
  RateLimiter.minIntervalMs (rateLimiter (WormholeService.new "u" "k" 5000 50 3)) == 100.
Proof.
  refine (proj1 (proj2 (limiter_interval_is_at_least_100ms "u" "k" 5000 50 3 _)) _);
    [reflexivity|discriminate].
Defined.

End LimiterProperties.

(* ------------------------------------------------------------------ *)
(** * The fallback of the rates on a notional of zero *)

Module FallbackProperties.
Import Js Upstream WormholeService Statements Properties JsFacts RetryFacts RateFacts
       SnapshotProperties.

Lemma normalizeRate_zero_throws source destination amountIn apiData now :
  StringToBigInt amountIn = Some 0 ->
  exists t, normalizeRate source destination amountIn apiData now = Threw t.
Proof.
  intros Hin. unfold normalizeRate, BigInt_of_string. rewrite Hin. cbn [bind].
  destruct (prop apiData "amountOut") as [a1|]; cbn [bind]; [|eauto].
  destruct (prop apiData "outputAmount") as [a2|]; cbn [bind]; [|eauto].
  destruct (prop apiData "amount") as [a3|]; cbn [bind]; [|eauto].
  destruct (prop apiData "amountOutMin") as [a4|]; cbn [bind]; [|eauto].
  destruct (negb (truthy _)); [unfold throwError; eauto|].
  destruct (BigInt_of_String_of_value _) as [amountOutNum|]; cbn [bind]; [|eauto].
  rewrite fdiv_zero_by_positive by apply multiplier_pos.
  unfold throwError. cbn. eauto.
Qed.

(** X19.  A notional of zero does not fail the snapshot.  [normalizeRate]
    rejects it, so no quote the upstream may send is used; the [catch] of
    [getRates] takes the error and falls back to [estimateRate], which
    returns a rate with [amountOut] "0", a fee of 0 and the effective rate
    0/0, that is NaN. *)
Theorem zero_notional_yields_a_rate_that_is_NaN
  (svc : WormholeService.t) (w : World) (k : nat) (route : Route) (notional : string) :
  StringToBigInt notional = Some 0 ->
  isFiniteNumber (Number_of_bigint (multiplier (decimals (destination route)))) = true ->
  exists now,
    getRatesFrom svc w k [(route, notional)]
    = Returned [Rate.mk (source route) (destination route) "0" "0" S754_nan
                  (S754_zero false) now].
Proof.
  intros Hin Hfin. rewrite getRatesFrom_cons. cbv zeta.
  set (run := executeRequest svc w k (PostQuote route notional) _).
  assert (Hest : estimateRate (source route) (destination route) notional
                   (clock w (k + attempts run)%nat)
                 = Returned (Rate.mk (source route) (destination route) "0" "0" S754_nan
                               (S754_zero false) (clock w (k + attempts run)%nat))).
  { unfold estimateRate, BigInt_of_string, estimateFeesUsd, exponentiate10. rewrite Hin.
    cbn [bind]. fold (multiplier (decimals (source route))).
    rewrite fdiv_zero_by_positive by apply multiplier_pos.
    destruct (Number_of_bigint_pos (multiplier (decimals (destination route)))
                ltac:(apply multiplier_pos)) as [(m & e & E)|E];
      rewrite E in *; [|discriminate].
    reflexivity. }
  destruct (outcome run) as [rate|t] eqn:E.
  - apply attemptLoop_returned in E as (r & _ & Hp).
    unfold bind in Hp. destruct (readJson r) as [data|]; [|discriminate].
    destruct (normalizeRate_zero_throws (source route) (destination route) notional data
                (arrival r) Hin) as (t & Ht).
    rewrite Ht in Hp. discriminate.
  - rewrite Hest. cbn [bind getRatesFrom]. eauto.
Qed.

Lemma zero_notional_yields_a_rate_that_is_NaN_witness :
  exists now,
    getRatesFrom Scenarios.service Scenarios.parMarket 0 [(Scenarios.usdcRoute, "0")]
    = Returned [Rate.mk Scenarios.usdcEthereum Scenarios.usdcPolygon "0" "0" S754_nan
                  (S754_zero false) now].
Proof.
  apply (zero_notional_yields_a_rate_that_is_NaN Scenarios.service Scenarios.parMarket 0
           Scenarios.usdcRoute "0"); reflexivity.
Defined.

End FallbackProperties.
